(** * The LiteLLM client of dspy ([dspy/clients/lm.py])

    A shallow embedding of the [LM] class and of the four module-level
    completion functions, followed by the properties of the request
    pipeline: request construction, the two memoised completion functions,
    history recording, the construction guard for the [o1-] family, the
    fine-tuning dispatch and the launch/kill stubs.

    Conventions.
    - A Python [dict] is an association list: insertion order is what
      [ujson.dumps] prints, so it is kept.
    - A Python [str] is a [string]; its characters stand for the code points
      below 256.
    - A Python [float] is a binary64 [float] of the kernel.
    - Exceptions are values of [exn]; a call either returns or raises
      ([result]).
    - [functools.lru_cache(maxsize=None)] is a finite map from the argument
      to the returned value, filled only when the wrapped function returns.
    - What the module imports from outside ([ujson.loads], the formatting of
      doubles inside [ujson.dumps], [litellm.completion],
      [litellm.text_completion], [os.getenv], and the predicates
      [is_self_hosted_model], [is_openai_model], [is_anyscale_model]) is the
      interface [Externals]; the theorems hold for all its instances, and the
      examples at the end run on one of them, a test double. *)

From Stdlib Require Import ZArith List Ascii String PrimFloat DecimalString Lia.
From stdpp Require Import base option list strings gmap.

Set Warnings "-register-all".

(** ** Python values *)

Inductive pyval : Type :=
| PNone
| PBool (b : bool)
| PInt (n : Z)
| PFloat (x : float)
| PStr (s : string)
| PList (items : list pyval)
| PDict (items : list (string * pyval))
| PObject (tag : string).   (* any other object: a set, a callable, ... *)

Abbreviation pydict := (list (string * pyval)).

(** [bool(v)]: the truth value used by [if v], [v or w] and [not v]. *)
Definition truthy (v : pyval) : bool :=
  match v with
  | PNone => false
  | PBool b => b
  | PInt n => negb (n =? 0)%Z
  | PFloat x => negb (PrimFloat.eqb x 0%float)
  | PStr s => negb (String.eqb s "")
  | PList l => match l with [] => false | _ => true end
  | PDict d => match d with [] => false | _ => true end
  | PObject _ => true
  end.

(** [a or b] *)
Definition py_or (a b : pyval) : pyval := if truthy a then a else b.

(** ** Exceptions *)

Inductive exn : Type :=
| TypeError
| KeyError
| AttributeError
| OverflowError
| JSONDecodeError
| AssertionError (msg : string)
| ValueError (msg : string)
| BackendError (what : string).

Inductive result (A : Type) : Type :=
| Ok (a : A)
| Raise (e : exn).
Arguments Ok {A} a.
Arguments Raise {A} e.

Definition is_ok {A} (r : result A) : bool :=
  match r with Ok _ => true | Raise _ => false end.

#[export] Instance result_ret : MRet result := fun A a => Ok a.
#[export] Instance result_bind : MBind result := fun A B f m =>
  match m with Ok a => f a | Raise e => Raise e end.

(** ** Strings *)

(** [s.startswith(p)] *)
Definition startswith (s p : string) : bool := String.prefix p s.

(** [sub in s] *)
Fixpoint str_in (sub s : string) : bool :=
  String.prefix sub s ||
  match s with
  | EmptyString => false
  | String _ rest => str_in sub rest
  end.

(** [sep.join(parts)] *)
Fixpoint str_join (sep : string) (parts : list string) : string :=
  match parts with
  | [] => ""
  | [p] => p
  | p :: rest => p +:+ sep +:+ str_join sep rest
  end.

(** [s.split(c, 1)] for a one-character separator: at most two pieces. *)
Fixpoint split_once (c : ascii) (s : string) : list string :=
  match s with
  | EmptyString => [""]
  | String a rest =>
      if Ascii.eqb a c then [""; rest]
      else match split_once c rest with
           | p :: ps => String a p :: ps
           | [] => [String a ""]
           end
  end.

(** ** Dictionaries (insertion ordered) *)

Definition keys (d : pydict) : list string := fst <$> d.

(** [d.get(k)] / [d[k]] *)
Fixpoint dict_get (k : string) (d : pydict) : option pyval :=
  match d with
  | [] => None
  | (k', v) :: rest => if decide (k = k') then Some v else dict_get k rest
  end.

(** [d[k] = v]: an existing key keeps its position, a new key goes last. *)
Fixpoint dict_set (k : string) (v : pyval) (d : pydict) : pydict :=
  match d with
  | [] => [(k, v)]
  | (k', v') :: rest =>
      if decide (k = k') then (k, v) :: rest else (k', v') :: dict_set k v rest
  end.

(** [del d[k]] (no error when absent) *)
Definition dict_del (k : string) (d : pydict) : pydict :=
  filter (fun kv => k ≠ kv.1) d.

(** [{**base, **over}] *)
Definition dict_merge (base over : pydict) : pydict :=
  fold_left (fun d kv => dict_set kv.1 kv.2 d) over base.

(** [d.pop(k, default)]: the value and the dictionary left. *)
Definition dict_pop (k : string) (default : pyval) (d : pydict) : pyval * pydict :=
  (from_option id default (dict_get k d), dict_del k d).

(** A call [f(k1=v1, ..., **kw)] (also [dict(k1=v1, ..., **kw)]): the named
    arguments first, then [kw]; a key given twice is a [TypeError]. *)
Definition call_kwargs (named kw : pydict) : result pydict :=
  if forallb (fun k => bool_decide (k ∉ keys named)) (keys kw)
  then Ok (named ++ kw)
  else Raise TypeError.

(** A well-formed [dict]: no key twice. *)
Definition dict_wf (d : pydict) : Prop := NoDup (keys d).


(** ** [ujson.dumps]

    The encoder with its defaults: no blanks after separators, keys in
    insertion order ([sort_keys] is off), [ensure_ascii] and
    [escape_forward_slashes] on.  How a double is printed is left to
    [fmt]; it may refuse one (nan, inf). *)

Definition dquote : ascii := "034"%char.
Definition bslash : ascii := "092"%char.

Definition hex_digit (n : nat) : ascii :=
  nth n (String.list_ascii_of_string "0123456789abcdef") "0"%char.

Definition u_escape (a : ascii) : string :=
  String bslash
    ("u00" +:+ String (hex_digit (nat_of_ascii a / 16))
                 (String (hex_digit (nat_of_ascii a mod 16)) "")).

Definition escape_char (a : ascii) : string :=
  let n := nat_of_ascii a in
  if (n =? 34)%nat then String bslash (String dquote "")
  else if (n =? 92)%nat then String bslash (String bslash "")
  else if (n =? 47)%nat then String bslash "/"
  else if (n =? 8)%nat then String bslash "b"
  else if (n =? 12)%nat then String bslash "f"
  else if (n =? 10)%nat then String bslash "n"
  else if (n =? 13)%nat then String bslash "r"
  else if (n =? 9)%nat then String bslash "t"
  else if (n <? 32)%nat || (127 <? n)%nat then u_escape a
  else String a "".

Fixpoint escape (s : string) : string :=
  match s with
  | EmptyString => ""
  | String a rest => escape_char a +:+ escape rest
  end.

Definition dumps_str (s : string) : string :=
  String dquote (escape s +:+ String dquote "").

Definition dumps_int (n : Z) : string := NilZero.string_of_int (Z.to_int n).

Section dumps.
Variable fmt : float → result string.

Section items.
Variable dumps : pyval → result string.

Fixpoint dumps_list (l : list pyval) : result (list string) :=
  match l with
  | [] => Ok []
  | v :: rest =>
      s ← dumps v; ss ← dumps_list rest; Ok (s :: ss)
  end.

Fixpoint dumps_items (d : pydict) : result (list string) :=
  match d with
  | [] => Ok []
  | (k, v) :: rest =>
      s ← dumps v; ss ← dumps_items rest;
      Ok ((dumps_str k +:+ ":" +:+ s) :: ss)
  end.
End items.

Fixpoint dumps_with (v : pyval) : result string :=
  match v with
  | PNone => Ok "null"
  | PBool true => Ok "true"
  | PBool false => Ok "false"
  | PInt n => Ok (dumps_int n)
  | PFloat x => fmt x
  | PStr s => Ok (dumps_str s)
  | PList l =>
      ss ← dumps_list dumps_with l; Ok ("[" +:+ str_join "," ss +:+ "]")
  | PDict d =>
      ss ← dumps_items dumps_with d; Ok ("{" +:+ str_join "," ss +:+ "}")
  | PObject _ => Raise TypeError
  end.
End dumps.

(** ** What the backend returns

    The response object is read in four places only: [response["choices"]],
    each choice's text, [response["usage"]] and
    [response.get("_hidden_params", {})]. *)

Inductive choice : Type :=
| ChatChoice (content : pyval)    (* has [message]; [c.message.content] *)
| TextChoice (text : pyval)       (* no [message]; [c["text"]] *)
| BareChoice.                     (* neither: [c["text"]] is a [KeyError] *)

Record response : Type := {
  choices : option (list choice);
  usage : option pydict;
  hidden_params : option pyval;
}.

(** ** The outside world *)

Class Externals : Type := {
  (** the provider, the disk cache of litellm, the environment *)
  World : Type;
  (** how [ujson.dumps] prints a double *)
  ujson_double : float → result string;
  ujson_loads : string → result pyval;
  (** [litellm.completion] and [litellm.text_completion], called with
      keyword arguments only *)
  litellm_api_completion : pydict → World → result response * World;
  litellm_api_text_completion : pydict → World → result response * World;
  os_getenv : World → string → option string;
  is_self_hosted_model : string → bool;
  is_openai_model : string → bool;
  is_anyscale_model : string → bool;
}.

Definition dumps `{Externals} : pyval → result string := dumps_with ujson_double.

(** ** The process and the client object *)

Inductive api : Type := ChatAPI | TextAPI.

(** One call of the backend: which entry point, with which keyword
    arguments ([cache] among them). *)
Record backend_call : Type := {
  bc_api : api;
  bc_args : pydict;
}.

Inductive finetune_function : Type := finetune_openai | finetune_anyscale.
Inductive FinetuneJob : Type := FinetuneJobOpenAI | FinetuneJobAnyScale.

(** What [finetune] does on its [ThreadPoolExecutor]. *)
Inductive executor_event : Type :=
| ExecutorCreated (max_workers : nat)
| Submitted (fn : finetune_function) (job : FinetuneJob)
            (model : string) (message_completion_pairs config : pyval)
| ExecutorShutdown (wait : bool).

(** One record of [LM.history].  Values do not change once made: an
    entry holds its messages as they were at the call, and a caller that
    empties the list it passed afterwards is outside this model. *)
Record HistoryEntry : Type := {
  e_prompt : pyval;
  e_messages : pyval;
  e_kwargs : pydict;
  e_response : response;
  e_outputs : list pyval;
  e_usage : pydict;
  e_cost : pyval;
}.

Record LM : Type := {
  model : string;
  model_type : string;
  cache : pyval;
  kwargs : pydict;
  history : list HistoryEntry;
}.

Definition history_append (e : HistoryEntry) (self : LM) : LM :=
  {| model := model self; model_type := model_type self; cache := cache self;
     kwargs := kwargs self; history := history self ++ [e] |}.

Section Client.
Context `{Ext : Externals}.

(** The state of the process, outside the client objects. *)
Record process : Type := {
  lru_completion : gmap string response;        (* of [cached_litellm_completion] *)
  lru_text_completion : gmap string response;   (* of [cached_litellm_text_completion] *)
  world : World;
  backend_log : list backend_call;              (* every backend call, oldest first *)
  experimental : bool;                          (* [dspy.settings.experimental] *)
  executor_log : list executor_event;
  debug_log : list string;                      (* [logger.debug] *)
}.

Definition set_lru_completion (m : gmap string response) (st : process) : process :=
  {| lru_completion := m; lru_text_completion := lru_text_completion st;
     world := world st; backend_log := backend_log st;
     experimental := experimental st; executor_log := executor_log st;
     debug_log := debug_log st |}.

Definition set_lru_text_completion (m : gmap string response) (st : process) : process :=
  {| lru_completion := lru_completion st; lru_text_completion := m;
     world := world st; backend_log := backend_log st;
     experimental := experimental st; executor_log := executor_log st;
     debug_log := debug_log st |}.

Definition record_backend_call (c : backend_call) (w : World) (st : process) : process :=
  {| lru_completion := lru_completion st;
     lru_text_completion := lru_text_completion st;
     world := w; backend_log := backend_log st ++ [c];
     experimental := experimental st; executor_log := executor_log st;
     debug_log := debug_log st |}.

Definition record_executor (evs : list executor_event) (st : process) : process :=
  {| lru_completion := lru_completion st;
     lru_text_completion := lru_text_completion st;
     world := world st; backend_log := backend_log st;
     experimental := experimental st; executor_log := executor_log st ++ evs;
     debug_log := debug_log st |}.

Definition record_debug (msg : string) (st : process) : process :=
  {| lru_completion := lru_completion st;
     lru_text_completion := lru_text_completion st;
     world := world st; backend_log := backend_log st;
     experimental := experimental st; executor_log := executor_log st;
     debug_log := debug_log st ++ [msg] |}.

(** Module-level code: it reads and writes the process, and returns or
    raises. *)
Definition Proc (A : Type) : Type := process → result A * process.

#[export] Instance proc_ret : MRet Proc := λ A a st, (Ok a, st).
#[export] Instance proc_bind : MBind Proc := λ A B f m st,
  match m st with
  | (Ok a, st') => f a st'
  | (Raise e, st') => (Raise e, st')
  end.

Definition lift {A} (r : result A) : Proc A := λ st, (r, st).

(** The one place where the backend is reached. *)
Definition backend (which : api) (args : pydict) : Proc response := λ st,
  let f := match which with
           | ChatAPI => litellm_api_completion
           | TextAPI => litellm_api_text_completion
           end in
  let '(r, w) := f args (world st) in
  (r, record_backend_call {| bc_api := which; bc_args := args |} w st).

(** [**v] in a call: [v] has to be a mapping. *)
Definition star (v : pyval) : result pydict :=
  match v with
  | PDict d => Ok d
  | _ => Raise TypeError
  end.

(** The [cache] argument of the two completion functions. *)
Definition cache_control (no_cache no_store : bool) : pyval :=
  PDict [("no-cache", PBool no_cache); ("no-store", PBool no_store)].

(** [functools.lru_cache(maxsize=None)] around a function of the request:
    a stored value is returned as it is; a computed one is stored when the
    function returns, and nothing is stored when it raises. *)
Definition lru_cache (get : process → gmap string response)
    (set : gmap string response → process → process)
    (f : string → Proc response) (request : string) : Proc response := λ st,
  match get st !! request with
  | Some r => (Ok r, st)
  | None =>
      match f request st with
      | (Ok r, st') => (Ok r, set (<[request := r]> (get st')) st')
      | (Raise e, st') => (Raise e, st')
      end
  end.

Definition litellm_completion (request : string) (cache : pyval) : Proc response :=
  kwargs ← lift (ujson_loads request);
  args ← lift (kw ← star kwargs; call_kwargs [("cache", cache)] kw);
  backend ChatAPI args.

Definition cached_litellm_completion : string → Proc response :=
  lru_cache lru_completion set_lru_completion
    (λ request, litellm_completion request (cache_control false false)).

(** [d.pop(k)] without a default *)
Definition pop_required (k : string) (v : pyval) : result (pyval * pydict) :=
  match v with
  | PDict d =>
      match dict_get k d with
      | Some x => Ok (x, dict_del k d)
      | None => Raise KeyError
      end
  | PList _ => Raise TypeError
  | _ => Raise AttributeError
  end.

(** [s.split("/", 1)] *)
Definition py_split_slash (v : pyval) : result (list string) :=
  match v with
  | PStr s => Ok (split_once "/"%char s)
  | _ => Raise AttributeError
  end.

(** [for x in v] *)
Definition py_iter (v : pyval) : result (list pyval) :=
  match v with
  | PList l => Ok l
  | PDict d => Ok (PStr <$> keys d)
  | PStr s => Ok ((λ a, PStr (String a "")) <$> String.list_ascii_of_string s)
  | _ => Raise TypeError
  end.

(** [x[k]] for a string [k] *)
Definition py_getitem (k : string) (x : pyval) : result pyval :=
  match x with
  | PDict d =>
      match dict_get k d with
      | Some v => Ok v
      | None => Raise KeyError
      end
  | _ => Raise TypeError
  end.

(** an operand of [str.join] *)
Definition as_str (v : pyval) : result string :=
  match v with
  | PStr s => Ok s
  | _ => Raise TypeError
  end.

Definition of_getenv (r : option string) : pyval :=
  match r with
  | Some s => PStr s
  | None => PNone
  end.

Definition newline : string := String "010"%char "".

(** The keyword arguments [litellm_text_completion] hands to the backend. *)
Definition text_completion_args (getenv : string → option string)
    (request : string) (cache : pyval) : result pydict :=
  kwargs ← ujson_loads request;
  '(m, kwargs) ← pop_required "model" kwargs;
  parts ← py_split_slash m;
  let provider := if (1 <? length parts)%nat then hd "" parts else "openai" in
  let model := List.last parts "" in
  let api_key := py_or (dict_pop "api_key" PNone kwargs).1
                       (of_getenv (getenv (provider +:+ "_API_KEY"))) in
  let kwargs := (dict_pop "api_key" PNone kwargs).2 in
  let api_base := py_or (dict_pop "api_base" PNone kwargs).1
                        (of_getenv (getenv (provider +:+ "_API_BASE"))) in
  let kwargs := (dict_pop "api_base" PNone kwargs).2 in
  '(messages, kwargs) ← pop_required "messages" (PDict kwargs);
  xs ← py_iter messages;
  contents ← mapM (py_getitem "content") xs;
  pieces ← mapM as_str (contents ++ [PStr "BEGIN RESPONSE:"]);
  let prompt := str_join (newline +:+ newline) pieces in
  call_kwargs [("cache", cache);
               ("model", PStr ("text-completion-openai/" +:+ model));
               ("api_key", api_key); ("api_base", api_base);
               ("prompt", PStr prompt)] kwargs.

Definition litellm_text_completion (request : string) (cache : pyval) : Proc response :=
  λ st, (args ← lift (text_completion_args (os_getenv (world st)) request cache);
         backend TextAPI args) st.

Definition cached_litellm_text_completion : string → Proc response :=
  lru_cache lru_text_completion set_lru_text_completion
    (λ request, litellm_text_completion request (cache_control false false)).

(** *** Methods: code that also holds [self] *)

Definition Meth (A : Type) : Type := LM → process → result A * LM * process.

#[export] Instance meth_ret : MRet Meth := λ A a self st, (Ok a, self, st).
#[export] Instance meth_bind : MBind Meth := λ A B f m self st,
  match m self st with
  | (Ok a, self', st') => f a self' st'
  | (Raise e, self', st') => (Raise e, self', st')
  end.

Definition this : Meth LM := λ self st, (Ok self, self, st).
Definition run {A} (m : Proc A) : Meth A := λ self st,
  let '(r, st') := m st in (r, self, st').
Definition ret {A} (r : result A) : Meth A := λ self st, (r, self, st).
Definition update_self (f : LM → LM) : Meth unit := λ self st, (Ok tt, f self, st).

(** *** [LM.__init__] *)

(** [v >= 5000]: numbers compare, anything else is a [TypeError]. *)
Definition py_ge_5000 (v : pyval) : result bool :=
  match v with
  | PInt m => Ok (5000 <=? m)%Z
  | PBool b => Ok (5000 <=? (if b then 1 else 0))%Z
  | PFloat x => Ok (PrimFloat.leb 5000%float x)
  | _ => Raise TypeError
  end.

(** [v == 1.0] *)
Definition py_eq_one (v : pyval) : bool :=
  match v with
  | PInt m => (m =? 1)%Z
  | PBool b => b
  | PFloat x => PrimFloat.eqb x 1%float
  | _ => false
  end.

Definition o1_message : string :=
  "OpenAI's o1-* models require passing temperature=1.0 and max_tokens >= 5000 to `dspy.LM(...)`".

Definition LM_init (model model_type : string) (temperature max_tokens cache : pyval)
    (kwargs : pydict) : result LM :=
  kw ← call_kwargs [("temperature", temperature); ("max_tokens", max_tokens)] kwargs;
  let self := {| model := model; model_type := model_type; cache := cache;
                 kwargs := kw; history := [] |} in
  if str_in "o1-" model then
    enough ← py_ge_5000 max_tokens;
    if enough && py_eq_one temperature then Ok self
    else Raise (AssertionError o1_message)
  else Ok self.

(** *** [LM.__call__] *)

Definition user_message (prompt : pyval) : pyval :=
  PDict [("role", PStr "user"); ("content", prompt)].

(** [messages or [{"role": "user", "content": prompt}]] *)
Definition request_messages (prompt messages : pyval) : pyval :=
  py_or messages (PList [user_message prompt]).

(** [kwargs.pop("cache", self.cache)] *)
Definition effective_cache (self : LM) (kw : pydict) : pyval :=
  (dict_pop "cache" (cache self) kw).1.

(** [{**self.kwargs, **kwargs}], after the pop of [cache] *)
Definition merged_kwargs (self : LM) (kw : pydict) : pydict :=
  dict_merge (kwargs self) (dict_pop "cache" (cache self) kw).2.

(** [dict(model=self.model, messages=messages, **kwargs)] *)
Definition request_dict (self : LM) (prompt messages : pyval) (kw : pydict)
    : result pydict :=
  call_kwargs [("model", PStr (model self));
               ("messages", request_messages prompt messages)]
              (merged_kwargs self kw).

(** The string handed to the completion function. *)
Definition build_request (self : LM) (prompt messages : pyval) (kw : pydict)
    : result string :=
  d ← request_dict self prompt messages kw; dumps (PDict d).

Definition select_completion (self : LM) (cache : pyval) : string → Proc response :=
  if decide (model_type self = "chat") then
    if truthy cache then cached_litellm_completion
    else λ request, litellm_completion request (cache_control true true)
  else
    if truthy cache then cached_litellm_text_completion
    else λ request, litellm_text_completion request (cache_control true true).

Definition choice_output (c : choice) : result pyval :=
  match c with
  | ChatChoice content => Ok content
  | TextChoice text => Ok text
  | BareChoice => Raise KeyError
  end.

(** [[... for c in response["choices"]]] *)
Definition response_outputs (r : response) : result (list pyval) :=
  match choices r with
  | Some cs => mapM choice_output cs
  | None => Raise KeyError
  end.

(** [dict(response["usage"])] *)
Definition response_usage (r : response) : result pydict :=
  match usage r with
  | Some u => Ok u
  | None => Raise KeyError
  end.

(** [response.get("_hidden_params", {}).get("response_cost")] *)
Definition response_cost (r : response) : result pyval :=
  match hidden_params r with
  | None => Ok PNone
  | Some (PDict d) => Ok (from_option id PNone (dict_get "response_cost" d))
  | Some _ => Raise AttributeError
  end.

(** [{k: v for k, v in kwargs.items() if not k.startswith("api_")}] *)
Definition scrub (kw : pydict) : pydict :=
  filter (λ kv, negb (startswith kv.1 "api_")) kw.

Definition LM_call (prompt messages : pyval) (kw : pydict) : Meth (list pyval) :=
  self ← this;
  (* Build the request. *)
  let cache := effective_cache self kw in
  let completion := select_completion self cache in
  (* Make the request and handle LRU & disk caching. *)
  request ← ret (build_request self prompt messages kw);
  response ← run (completion request);
  outputs ← ret (response_outputs response);
  (* Logging, with removed api key. *)
  let kwargs := scrub (merged_kwargs self kw) in
  usage ← ret (response_usage response);
  cost ← ret (response_cost response);
  let entry := {| e_prompt := prompt;
                  e_messages := request_messages prompt messages;
                  e_kwargs := kwargs; e_response := response;
                  e_outputs := outputs; e_usage := usage; e_cost := cost |} in
  update_self (history_append entry);;
  mret outputs.

(** *** [LM.launch], [LM.kill] and the self-hosted stubs *)

Definition logger_debug (msg : string) : Proc unit := λ st, (Ok tt, record_debug msg st).

(** The body is [pass]; the argument [lm] is the object the method holds. *)
Definition self_hosted_model_launch : Meth unit := mret tt.

Definition self_hosted_model_kill : Meth unit := mret tt.

Definition launch : Meth unit :=
  self ← this;
  (if is_self_hosted_model (model self) then self_hosted_model_launch else mret tt);;
  run (logger_debug ("`LM.launch()` is called for the auto-launched model "
                     +:+ model self +:+ " -- no action is taken.")).

Definition kill : Meth unit :=
  self ← this;
  (if is_self_hosted_model (model self) then self_hosted_model_kill else mret tt);;
  run (logger_debug ("`LM.kill()` is called for the auto-launched model "
                     +:+ model self +:+ " -- no action is taken.")).

(** *** [LM.finetune] *)

Definition raise {A} (e : exn) : Proc A := λ st, (Raise e, st).

Definition experimental_message : string :=
  "Fine-tuning is an experimental feature and requires `dspy.settings.experimental = True`.".

Definition unsupported_message (model : string) : string :=
  "Fine-tuning is not supported for the model " +:+ model +:+ ".".

(** [ThreadPoolExecutor(max_workers=1)], one [submit], [shutdown(wait=False)] *)
Definition start_training (fn : finetune_function) (job : FinetuneJob)
    (model : string) (message_completion_pairs config : pyval) : Proc unit := λ st,
  (Ok tt, record_executor [ExecutorCreated 1;
                           Submitted fn job model message_completion_pairs config;
                           ExecutorShutdown false] st).

Definition finetune (self : LM) (message_completion_pairs config : pyval)
    : Proc FinetuneJob :=
  (* Fine-tuning is experimental and requires the experimental flag *)
  enabled ← (λ st, (Ok (experimental st), st));
  if negb enabled then raise (AssertionError experimental_message) else
  (* Find the respective finetuning functions and job classes *)
  let '(finetune_function, finetune_job) :=
    if is_openai_model (model self) then
      (Some finetune_openai, Some FinetuneJobOpenAI)
    else if is_anyscale_model (model self) then
      (Some finetune_anyscale, Some FinetuneJobAnyScale)
    else (None, None) in
  (* Ensure that the model supports fine-tuning *)
  match finetune_function, finetune_job with
  | Some fn, Some job =>
      (* Start asyncronous training *)
      start_training fn job (model self) message_completion_pairs config;;
      mret job
  | _, _ => raise (ValueError (unsupported_message (model self)))
  end.

(** *** Sequences of calls on one client *)

Record invocation : Type := {
  inv_prompt : pyval;
  inv_messages : pyval;
  inv_kwargs : pydict;
}.

Definition invoke (c : invocation) : Meth (list pyval) :=
  LM_call (inv_prompt c) (inv_messages c) (inv_kwargs c).

(** The calls one after the other; a caller that catches what a call raises
    and goes on with the next. *)
Fixpoint run_calls (cs : list invocation) (self : LM) (st : process)
    : list (result (list pyval)) * LM * process :=
  match cs with
  | [] => ([], self, st)
  | c :: rest =>
      let '(r, self1, st1) := invoke c self st in
      let '(rs, self2, st2) := run_calls rest self1 st1 in
      (r :: rs, self2, st2)
  end.

End Client.

(** ** Order of the merged parameters

    [{**base, **over}] is [base] with the values [over] gives to its keys,
    followed by the items of [over] whose keys [base] does not have. *)



(** [sub] occurs in [s] *)
Definition occurs_in (sub s : string) : Prop :=
  ∃ before after, s = before +:+ sub +:+ after.

(** ** A test double for the outside world

    A provider that follows a script: each call it gets consumes one entry,
    [true] for a call it serves and [false] for one it refuses; with the
    script used up it refuses.  It answers every request it serves with the
    one choice [4] at a cost of 0.25.  The decoder knows the requests of
    the examples below. *)

Definition stub_double (x : float) : result string :=
  if PrimFloat.eqb x 0%float then Ok "0.0"
  else if PrimFloat.eqb x 1%float then Ok "1.0"
  else Raise OverflowError.

Definition stub_loads (known : list pyval) (s : string) : result pyval :=
  match find (λ v, match dumps_with stub_double v with
                   | Ok s' => String.eqb s s'
                   | Raise _ => false
                   end) known with
  | Some v => Ok v
  | None => Raise JSONDecodeError
  end.

Definition stub_answer (which : api) : response :=
  {| choices := Some [match which with
                      | ChatAPI => ChatChoice (PStr "4")
                      | TextAPI => TextChoice (PStr "4")
                      end];
     usage := Some [("total_tokens", PInt 7)];
     hidden_params := Some (PDict [("response_cost", PFloat 0.25)]) |}.

Definition stub_provider (which : api) (args : pydict) (script : list bool)
    : result response * list bool :=
  match script with
  | true :: rest => (Ok (stub_answer which), rest)
  | false :: rest => (Raise (BackendError "service unavailable"), rest)
  | [] => (Raise (BackendError "service unavailable"), [])
  end.

Definition stub_request (extra : pydict) : pyval :=
  PDict ([("model", PStr "gpt-4o-mini");
          ("messages", PList [PDict [("role", PStr "user");
                                     ("content", PStr "2+2=")]]);
          ("temperature", PFloat 0); ("max_tokens", PInt 1000)] ++ extra).

Definition stub : Externals := {|
  World := list bool;
  ujson_double := stub_double;
  ujson_loads := stub_loads [stub_request [];
                             stub_request [("api_key", PStr "sk-test")]];
  litellm_api_completion := stub_provider ChatAPI;
  litellm_api_text_completion := stub_provider TextAPI;
  os_getenv := λ _ _, None;
  is_self_hosted_model := String.prefix "local/";
  is_openai_model := String.prefix "gpt-";
  is_anyscale_model := String.prefix "anyscale/";
|}.

(** A fresh process, the provider at the start of [script]. *)
Definition stub_process (script : list bool) (flag : bool) : @process stub :=
  @Build_process stub ∅ ∅ script [] flag [] [].

(** [dspy.LM("gpt-4o-mini")] *)
Definition stub_lm : LM :=
  {| model := "gpt-4o-mini"; model_type := "chat"; cache := PBool true;
     kwargs := [("temperature", PFloat 0); ("max_tokens", PInt 1000)];
     history := [] |}.

(** [lm("2+2=", **kw)] *)
Definition ask (kw : pydict) : invocation :=
  {| inv_prompt := PStr "2+2="; inv_messages := PNone; inv_kwargs := kw |}.


(** ** Vocabulary of the statements *)

(** The record [LM.__call__] appends. *)
Definition entry_of (self : LM) (prompt messages : pyval) (kw : pydict)
    (r : response) (outputs : list pyval) (usage : pydict) (cost : pyval)
    : HistoryEntry :=
  {| e_prompt := prompt; e_messages := request_messages prompt messages;
     e_kwargs := scrub (merged_kwargs self kw); e_response := r;
     e_outputs := outputs; e_usage := usage; e_cost := cost |}.

(** The backend call [c] was given [cache=directive]. *)
Definition passes_cache (directive : pyval) (c : backend_call) : Prop :=
  dict_get "cache" (bc_args c) = Some directive.

(** The effective cache flag of a call is off. *)
Definition cache_off (self : LM) (c : invocation) : Prop :=
  truthy (effective_cache self (inv_kwargs c)) = false.

(** How many of the calls returned. *)
Definition returned {A} (rs : list (result A)) : nat :=
  length (filter (λ r, is_ok r = true) rs).

(** What a completion function may do to the backend log: it adds at most
    one call, exactly one when it returns, and that call carries
    [cache=directive]. *)
Definition one_call_at_most `{Ext : Externals} (directive : pyval)
    (st : process) (r : result response) (st1 : process) : Prop :=
  ∃ new, backend_log st1 = backend_log st ++ new ∧ length new ≤ 1 ∧
         (is_ok r = true → length new = 1) ∧ Forall (passes_cache directive) new.

(** The two memo tables are the same in both states. *)
Definition same_memo `{Ext : Externals} (st st1 : process) : Prop :=
  lru_completion st1 = lru_completion st ∧
  lru_text_completion st1 = lru_text_completion st.

(** The request string of a call. *)
Definition request_of `{Ext : Externals} (self : LM) (c : invocation)
    : result string :=
  build_request self (inv_prompt c) (inv_messages c) (inv_kwargs c).

(** The calls that returned, each with what it returned, in order. *)
Fixpoint successes (cs : list invocation) (rs : list (result (list pyval)))
    : list (invocation * list pyval) :=
  match cs, rs with
  | c :: cs', Ok outputs :: rs' => (c, outputs) :: successes cs' rs'
  | _ :: cs', Raise _ :: rs' => successes cs' rs'
  | _, _ => []
  end.

(** What a history entry says of its call. *)
Definition entry_call (e : HistoryEntry) : pyval * list pyval :=
  (e_prompt e, e_outputs e).

(** The memo table a client's calls go through: the one of
    [cached_litellm_completion] for a chat client, the one of
    [cached_litellm_text_completion] for any other. *)
Definition memo_of `{Ext : Externals} (self : LM) (st : process)
    : gmap string response :=
  if decide (model_type self = "chat") then lru_completion st
  else lru_text_completion st.

(** Two clients of the same kind, chat or text. *)
Definition same_mode (a b : LM) : Prop :=
  model_type a = "chat" ↔ model_type b = "chat".

(** What [LM.__call__] reads off a response, in the order it reads it. *)
Definition read_response (r : response)
    : result (list pyval * pydict * pyval) :=
  outputs ← response_outputs r;
  usage ← response_usage r;
  cost ← response_cost r;
  Ok (outputs, usage, cost).

(** ** [inspect_history] and its helpers

    Printing goes to a list of writes, oldest first.  Besides the
    exceptions above, the code can raise an [IndexError].
    [str.capitalize] is taken as a parameter; [str.strip] and [str.lstrip]
    drop the white space of Python below 256. *)

Inductive failure : Type :=
| Exn (e : exn)
| IndexError.

Inductive outcome (A : Type) : Type :=
| Fine (a : A)
| Fails (f : failure).
Arguments Fine {A} a.
Arguments Fails {A} f.

Definition is_fine {A} (o : outcome A) : bool :=
  match o with Fine _ => true | Fails _ => false end.

Definition Out (A : Type) : Type := list string → outcome A * list string.

#[export] Instance out_ret : MRet Out := λ A a out, (Fine a, out).
#[export] Instance out_bind : MBind Out := λ A B f m out,
  match m out with
  | (Fine a, out') => f a out'
  | (Fails e, out') => (Fails e, out')
  end.

Definition out_of {A} (r : result A) : Out A := λ out,
  (match r with Ok a => Fine a | Raise e => Fails (Exn e) end, out).

Definition fails {A} (f : failure) : Out A := λ out, (Fails f, out).

(** [print(text)] *)
Definition print (text : string) : Out unit := λ out,
  (Fine tt, out ++ [text +:+ newline]).

(** [str.isspace] on one character *)
Definition is_space (a : ascii) : bool :=
  let n := nat_of_ascii a in
  ((9 <=? n) && (n <=? 13)) || ((28 <=? n) && (n <=? 32))
  || (n =? 133) || (n =? 160).

Fixpoint lstrip (s : string) : string :=
  match s with
  | EmptyString => ""
  | String a rest => if is_space a then lstrip rest else s
  end.

Fixpoint rstrip (s : string) : string :=
  match s with
  | EmptyString => ""
  | String a rest =>
      match rstrip rest with
      | EmptyString => if is_space a then "" else String a ""
      | kept => String a kept
      end
  end.

Definition strip (s : string) : string := lstrip (rstrip s).

(** The escape sequence [\x1b[<code>m] *)
Definition sgr (code : string) : string :=
  String "027"%char ("[" +:+ code +:+ "m").

Definition _green (text ending : string) : string :=
  sgr "32" +:+ lstrip text +:+ sgr "0" +:+ ending.

Definition _red (text ending : string) : string :=
  sgr "31" +:+ text +:+ sgr "0" +:+ ending.

(** [v.strip()], [v.capitalize()]: [v] has to be a [str]. *)
Definition str_method (v : pyval) : result string :=
  match v with
  | PStr s => Ok s
  | _ => Raise AttributeError
  end.

(** [h[-n:]] *)
Definition history_slice (n : Z) (h : list HistoryEntry) : list HistoryEntry :=
  if (0 <? n)%Z then drop (length h - Z.to_nat n) h
  else drop (Z.to_nat (- n)) h.

Section Inspect.
Variable capitalize : string → string.

(** The body of [for msg in messages] *)
Definition show_message (msg : pyval) : Out unit :=
  role ← out_of (r ← py_getitem "role" msg; str_method r);
  print (_red (capitalize role +:+ " message:") newline);;
  content ← out_of (c ← py_getitem "content" msg; str_method c);
  print (strip content);;
  print newline.

Fixpoint show_messages (msgs : list pyval) : Out unit :=
  match msgs with
  | [] => mret tt
  | msg :: rest => show_message msg;; show_messages rest
  end.

(** The body of [for item in lm.history[-n:]] *)
Definition show_entry (item : HistoryEntry) : Out unit :=
  let messages := py_or (e_messages item) (PList [user_message (e_prompt item)]) in
  let outputs := e_outputs item in
  print (newline +:+ newline +:+ newline);;
  msgs ← out_of (py_iter messages);
  show_messages msgs;;
  print (_red "Response:" newline);;
  first ← match outputs with
          | [] => fails IndexError
          | o :: _ => out_of (str_method o)
          end;
  print (_green (strip first) newline);;
  if (1 <? length outputs)%nat then
    let choices_text :=
      " " +:+ String "009"%char " (and "
      +:+ dumps_int (Z.of_nat (length outputs) - 1)
      +:+ " other completions)" in
    print (_red choices_text "")
  else mret tt.

Fixpoint show_entries (items : list HistoryEntry) : Out unit :=
  match items with
  | [] => mret tt
  | item :: rest => show_entry item;; show_entries rest
  end.

Definition _inspect_history (lm : LM) (n : Z) : Out unit :=
  show_entries (history_slice n (history lm));;
  print (newline +:+ newline +:+ newline).

(** [LM.inspect_history] *)
Definition inspect_history (self : LM) (n : Z) : Out unit :=
  _inspect_history self n.

End Inspect.

(** A message [_inspect_history] can print: a dictionary with a string
    under [role] and a string under [content]. *)
Definition showable_message (msg : pyval) : bool :=
  match msg with
  | PDict d =>
      match dict_get "role" d, dict_get "content" d with
      | Some (PStr _), Some (PStr _) => true
      | _, _ => false
      end
  | _ => false
  end.

(** An entry it can print: showable messages, and a first output that is a
    string. *)
Definition showable (item : HistoryEntry) : bool :=
  match py_iter (py_or (e_messages item) (PList [user_message (e_prompt item)])) with
  | Ok msgs => forallb showable_message msgs
  | Raise _ => false
  end
  && match e_outputs item with
     | PStr _ :: _ => true
     | _ => false
     end.

(** ** More test doubles

    The scripted provider again, with the answer and the requests the
    decoder knows left open. *)

Definition scripted (answer : response) (args : pydict) (script : list bool)
    : result response * list bool :=
  match script with
  | true :: rest => (Ok answer, rest)
  | false :: rest => (Raise (BackendError "service unavailable"), rest)
  | [] => (Raise (BackendError "service unavailable"), [])
  end.

Definition double (answer : api → response) (known : list pyval) : Externals := {|
  World := list bool;
  ujson_double := stub_double;
  ujson_loads := stub_loads known;
  litellm_api_completion := scripted (answer ChatAPI);
  litellm_api_text_completion := scripted (answer TextAPI);
  os_getenv := λ _ _, None;
  is_self_hosted_model := String.prefix "local/";
  is_openai_model := String.prefix "gpt-";
  is_anyscale_model := String.prefix "anyscale/";
|}.

Definition double_process (answer : api → response) (known : list pyval)
    (script : list bool) : @process (double answer known) :=
  @Build_process (double answer known) ∅ ∅ script [] false [] [].

(** The request of a client with the default parameters and one user
    message. *)
Definition request_with (model : string) (content : pyval) : pyval :=
  PDict [("model", PStr model); ("messages", PList [user_message content]);
         ("temperature", PFloat 0); ("max_tokens", PInt 1000)].

(** A double that also decodes the requests of a text client and those
    without a prompt. *)
Definition stub_more : Externals :=
  double stub_answer
    [request_with "gpt-4o-mini" (PStr "2+2="); request_with "gpt-4o-mini" PNone;
     request_with "together/llama-3" (PStr "2+2=");
     request_with "together/llama-3" PNone].

(** A double whose provider answers with a choice that has no text. *)
Definition mute_answer (which : api) : response :=
  {| choices := Some [BareChoice]; usage := Some []; hidden_params := None |}.

Definition stub_mute : Externals :=
  double mute_answer [request_with "gpt-4o-mini" (PStr "2+2=")].

(** [dspy.LM("together/llama-3", model_type="text")] *)
Definition text_lm : LM :=
  {| model := "together/llama-3"; model_type := "text"; cache := PBool true;
     kwargs := [("temperature", PFloat 0); ("max_tokens", PInt 1000)];
     history := [] |}.

(** A second chat client for the model of [stub_lm]. *)
Definition other_lm : LM :=
  {| model := "gpt-4o-mini"; model_type := "chat"; cache := PInt 1;
     kwargs := [("temperature", PFloat 0); ("max_tokens", PInt 1000)];
     history := [] |}.

(** [str.capitalize] on the letters a to z. *)
Definition capitalize_ascii (s : string) : string :=
  let upper a := let n := nat_of_ascii a in
                 if (97 <=? n) && (n <=? 122) then ascii_of_nat (n - 32) else a in
  let lower a := let n := nat_of_ascii a in
                 if (65 <=? n) && (n <=? 90) then ascii_of_nat (n + 32) else a in
  match s with
  | EmptyString => ""
  | String a rest =>
      String (upper a)
        (String.string_of_list_ascii (lower <$> String.list_ascii_of_string rest))
  end.

(** What a result holds, [d] when it is an exception. *)
Definition value_of {A} (d : A) (r : result A) : A :=
  match r with
  | Ok a => a
  | Raise _ => d
  end.

(** The entry point of the backend a client's calls go to. *)
Definition api_of (self : LM) : api :=
  if decide (model_type self = "chat") then ChatAPI else TextAPI.

(** The keyword arguments a call with the cache off has for the backend,
    when it gets that far: the request is built, serialised and decoded,
    and for a text client the prompt is put together.  An exception here
    is raised before the backend is reached. *)
Definition bypass_args `{Ext : Externals} (self : LM) (c : invocation)
    (st : process) : result pydict :=
  request ← request_of self c;
  if decide (model_type self = "chat") then
    kwargs ← ujson_loads request;
    kw ← star kwargs;
    call_kwargs [("cache", cache_control true true)] kw
  else
    text_completion_args (os_getenv (world st)) request (cache_control true true).

(** How many calls of a run with the cache off get as far as the backend. *)
Fixpoint reached_backend `{Ext : Externals} (cs : list invocation) (self : LM)
    (st : process) : nat :=
  match cs with
  | [] => 0
  | c :: rest =>
      (if is_ok (bypass_args self c st) then 1 else 0)
      + reached_backend rest (invoke c self st).1.2 (invoke c self st).2
  end.

(** A character that a JSON string holds as it is: printable ASCII other
    than the double quote, the backslash and the slash. *)
Definition plain_char (a : ascii) : bool :=
  let n := nat_of_ascii a in
  (32 <=? n) && (n <=? 126) && negb (n =? 34) && negb (n =? 92) && negb (n =? 47).

Fixpoint plain (s : string) : bool :=
  match s with
  | EmptyString => true
  | String a rest => plain_char a && plain rest
  end.

(** [s] between two double quotes, character for character. *)
Definition quoted (s : string) : string :=
  String "034"%char (s +:+ String "034"%char "").

(** * Properties *)

(** ** Dictionaries *)

Section dict_facts.
Implicit Types (d base over : pydict) (k : string) (v : pyval).

Lemma keys_cons k v d : keys ((k, v) :: d) = k :: keys d.
Proof. reflexivity. Qed.


Lemma dict_wf_cons k v d : dict_wf ((k, v) :: d) ↔ (k ∉ keys d) ∧ dict_wf d.
Proof. unfold dict_wf. rewrite keys_cons. apply NoDup_cons. Qed.

Lemma dict_get_None k d : dict_get k d = None ↔ k ∉ keys d.
Proof.
  induction d as [|[k0 v0] d IH].
  - split; [intros _; apply not_elem_of_nil | done].
  - rewrite keys_cons, not_elem_of_cons. simpl. case_decide; subst.
    + split; [done | intros [? _]; done].
    + rewrite IH. tauto.
Qed.

Lemma dict_get_Some_in k v d : dict_get k d = Some v → (k, v) ∈ d.
Proof.
  induction d as [|[k0 v0] d IH]; simpl; [done|].
  case_decide; subst.
  - intros [= ->]. left.
  - intros. right. auto.
Qed.

Lemma dict_get_del k' k d :
  dict_get k' (dict_del k d) = if decide (k' = k) then None else dict_get k' d.
Proof.
  unfold dict_del. induction d as [|[k0 v0] d IH].
  - rewrite filter_nil. simpl. by case_decide.
  - destruct (decide (k = k0)) as [<-|Hne].
    + rewrite filter_cons_False by (simpl; tauto). rewrite IH. simpl.
      repeat case_decide; congruence.
    + rewrite filter_cons_True by done. simpl. rewrite IH.
      repeat case_decide; congruence.
Qed.

Lemma dict_wf_del k d : dict_wf d → dict_wf (dict_del k d).
Proof.
  unfold dict_wf, keys, dict_del. intros H.
  induction d as [|[k0 v0] d IH]; [done|].
  apply NoDup_cons in H as [Hk0 H].
  destruct (decide (k = k0)) as [<-|Hne].
  - rewrite filter_cons_False by (simpl; tauto). auto.
  - rewrite filter_cons_True by done. rewrite fmap_cons. apply NoDup_cons.
    split; [|auto]. intros Hin. apply Hk0.
    apply list_elem_of_fmap in Hin as [kv [-> Hin]].
    apply list_elem_of_filter in Hin as [_ Hin].
    apply list_elem_of_fmap. by exists kv.
Qed.











End dict_facts.

(** ** The request string *)

Section request_facts.
Context `{Ext : Externals}.



End request_facts.

(** ** The completion functions *)

Section completion_facts.
Context `{Ext : Externals}.
Implicit Types (st : process) (r : result response).

Lemma call_kwargs_first k v (kw args : pydict) named :
  call_kwargs ((k, v) :: named) kw = Ok args → dict_get k args = Some v.
Proof.
  unfold call_kwargs. case_match; [|done]. intros [= <-]. simpl.
  by rewrite decide_True.
Qed.

Lemma backend_spec which args st r st1 :
  backend which args st = (r, st1) →
  same_memo st st1 ∧
  backend_log st1 = backend_log st ++ [{| bc_api := which; bc_args := args |}].
Proof.
  unfold backend. destruct which;
    [destruct litellm_api_completion | destruct litellm_api_text_completion];
    intros [= <- <-]; done.
Qed.

Lemma no_call directive st r : is_ok r = false → one_call_at_most directive st r st.
Proof.
  intros Hr. exists []. rewrite app_nil_r. split_and!; [done|simpl; lia| |done].
  rewrite Hr. done.
Qed.

Lemma litellm_completion_spec request directive st r st1 :
  litellm_completion request directive st = (r, st1) →
  same_memo st st1 ∧ one_call_at_most directive st r st1.
Proof.
  unfold litellm_completion, mbind, proc_bind, lift.
  destruct (ujson_loads request) as [v|e]; simpl.
  2:{ intros [= <- <-]. split; [done|]. by apply no_call. }
  destruct (star v) as [kw|e]; simpl.
  2:{ intros [= <- <-]. split; [done|]. by apply no_call. }
  destruct (call_kwargs _ kw) as [args|e] eqn:Hargs; simpl.
  2:{ intros [= <- <-]. split; [done|]. by apply no_call. }
  intros [Hmemo Hlog]%backend_spec. split; [done|].
  eexists. split_and!; [done|simpl; lia|done|].
  apply Forall_singleton. by eapply call_kwargs_first.
Qed.

Lemma litellm_text_completion_spec request directive st r st1 :
  litellm_text_completion request directive st = (r, st1) →
  same_memo st st1 ∧ one_call_at_most directive st r st1.
Proof.
  unfold litellm_text_completion, mbind, proc_bind, lift.
  destruct (text_completion_args _ request directive) as [args|e] eqn:Hargs.
  2:{ intros [= <- <-]. split; [done|]. by apply no_call. }
  intros [Hmemo Hlog]%backend_spec. split; [done|].
  eexists. split_and!; [done|simpl; lia|done|].
  apply Forall_singleton. revert Hargs.
  unfold text_completion_args, mbind, result_bind.
  repeat (case_match; try done).
  all: apply call_kwargs_first.
Qed.

(** [lru_cache]: a hit changes nothing; a miss runs the function and stores
    what it returns. *)
Lemma lru_cache_spec get set f request st r st1 :
  lru_cache get set f request st = (r, st1) →
  (∃ x, get st !! request = Some x ∧ r = Ok x ∧ st1 = st) ∨
  (get st !! request = None ∧
   ∃ st', f request st = (r, st') ∧
          st1 = match r with
                | Ok x => set (<[request := x]> (get st')) st'
                | Raise _ => st'
                end).
Proof.
  unfold lru_cache. destruct (get st !! request) as [x|] eqn:Hget.
  - intros [= <- <-]. left. eauto.
  - destruct (f request st) as [[x|e] st'] eqn:Hf; intros [= <- <-];
      right; eauto.
Qed.

(** With the cache flag off the memo tables are out of the way. *)
Lemma select_completion_off self flag request st r st1 :
  truthy flag = false →
  select_completion self flag request st = (r, st1) →
  same_memo st st1 ∧ one_call_at_most (cache_control true true) st r st1.
Proof.
  unfold select_completion. intros ->.
  case_decide; eauto using litellm_completion_spec, litellm_text_completion_spec.
Qed.

(** With the cache flag on: at most one backend call, none on a hit. *)
Lemma select_completion_on self flag request st r st1 :
  truthy flag = true →
  select_completion self flag request st = (r, st1) →
  ∃ new, backend_log st1 = backend_log st ++ new ∧ length new ≤ 1 ∧
         Forall (passes_cache (cache_control false false)) new.
Proof.
  unfold select_completion. intros ->.
  case_decide; intros [(x & _ & _ & ->)|(_ & st' & Hf & ->)]%lru_cache_spec.
  1,3: exists []; rewrite app_nil_r; split_and!; [done|simpl; lia|done].
  - apply litellm_completion_spec in Hf as [_ (new & Hlog & Hlen & _ & Hall)].
    exists new. split_and!; [|done..]. by destruct r.
  - apply litellm_text_completion_spec in Hf as [_ (new & Hlog & Hlen & _ & Hall)].
    exists new. split_and!; [|done..]. by destruct r.
Qed.

(** What a memoised completion returned, it returns again, from the table:
    no state changes, so no backend call. *)
Lemma select_completion_again self flag flag' request st x st1 :
  truthy flag = true → truthy flag' = true →
  select_completion self flag request st = (Ok x, st1) →
  select_completion self flag' request st1 = (Ok x, st1).
Proof.
  unfold select_completion. intros -> ->.
  case_decide; intros [(y & Hget & [= <-] & ->)|(_ & st' & Hf & ->)]%lru_cache_spec;
    unfold cached_litellm_completion, cached_litellm_text_completion, lru_cache;
    simpl; by rewrite ?Hget, ?lookup_insert_eq.
Qed.

(** *** The table of a client's kind *)

Lemma same_mode_select (a b : LM) flag :
  same_mode a b → select_completion a flag = select_completion b flag.
Proof.
  unfold same_mode, select_completion. intros Hmode.
  repeat case_decide; tauto.
Qed.

Lemma same_mode_memo (a b : LM) st : same_mode a b → memo_of a st = memo_of b st.
Proof.
  unfold same_mode, memo_of. intros Hmode. repeat case_decide; tauto.
Qed.

(** A memoised completion that returned has its value in the table. *)
Lemma select_completion_fills self flag request st (r : response) st1 :
  truthy flag = true →
  select_completion self flag request st = (Ok r, st1) →
  memo_of self st1 !! request = Some r.
Proof.
  unfold select_completion, memo_of. intros ->.
  case_decide; intros [(x & Hget & [= <-] & ->)|(_ & st' & Hf & ->)]%lru_cache_spec;
    simpl; by rewrite ?lookup_insert_eq.
Qed.

(** A memoised completion whose table has the request does not run. *)
Lemma select_completion_hit self flag request st (r : response) :
  truthy flag = true →
  memo_of self st !! request = Some r →
  select_completion self flag request st = (Ok r, st).
Proof.
  unfold select_completion, memo_of. intros -> Hget.
  case_decide; unfold cached_litellm_completion, cached_litellm_text_completion,
    lru_cache; by rewrite Hget.
Qed.

End completion_facts.

(** ** [LM.__call__] *)

Section call_facts.
Context `{Ext : Externals}.
Implicit Types (self : LM) (st : process) (kw : pydict).

(** The method, step by step. *)
Lemma LM_call_unfold prompt messages kw self st :
  LM_call prompt messages kw self st =
  match build_request self prompt messages kw with
  | Raise e => (Raise e, self, st)
  | Ok request =>
      match select_completion self (effective_cache self kw) request st with
      | (Raise e, st1) => (Raise e, self, st1)
      | (Ok r, st1) =>
          match response_outputs r, response_usage r, response_cost r with
          | Ok outputs, Ok usage, Ok cost =>
              (Ok outputs,
               history_append
                 (entry_of self prompt messages kw r outputs usage cost) self,
               st1)
          | Raise e, _, _ | Ok _, Raise e, _ | Ok _, Ok _, Raise e =>
              (Raise e, self, st1)
          end
      end
  end.
Proof.
  unfold LM_call, mbind, meth_bind, this, ret, run, update_self, mret, meth_ret.
  destruct (build_request _ _ _ _) as [request|e]; [|done].
  destruct (select_completion _ _ _ _) as [[r|e] st1]; [|done].
  destruct (response_outputs r), (response_usage r), (response_cost r); done.
Qed.

(** A call that returns. *)
Lemma LM_call_ok prompt messages kw self st outputs self1 st1 :
  LM_call prompt messages kw self st = (Ok outputs, self1, st1) →
  ∃ request r usage cost,
    build_request self prompt messages kw = Ok request ∧
    select_completion self (effective_cache self kw) request st = (Ok r, st1) ∧
    response_outputs r = Ok outputs ∧
    response_usage r = Ok usage ∧
    response_cost r = Ok cost ∧
    self1 = history_append
              (entry_of self prompt messages kw r outputs usage cost) self.
Proof.
  rewrite LM_call_unfold. intros H.
  destruct (build_request _ _ _ _) as [request|e] eqn:Hreq; [|done].
  destruct (select_completion _ _ _ _) as [[r|e] st'] eqn:Hsel; [|done].
  destruct (response_outputs r) as [o|] eqn:Ho, (response_usage r) as [u|] eqn:Hu,
    (response_cost r) as [c|] eqn:Hc; try done.
  injection H as <- <- <-. by exists request, r, u, c.
Qed.

(** A call that raises leaves the client as it was. *)
Lemma LM_call_raise prompt messages kw self st e self1 st1 :
  LM_call prompt messages kw self st = (Raise e, self1, st1) → self1 = self.
Proof.
  rewrite LM_call_unfold. intros H.
  destruct (build_request _ _ _ _) as [request|]; [|by injection H].
  destruct (select_completion _ _ _ _) as [[r|] st']; [|by injection H].
  destruct (response_outputs r) as [o|], (response_usage r) as [u|],
    (response_cost r) as [c|]; by injection H.
Qed.

(** Whatever happens, the configuration of the client stays. *)
Lemma LM_call_config prompt messages kw self st res self1 st1 :
  LM_call prompt messages kw self st = (res, self1, st1) →
  model self1 = model self ∧ model_type self1 = model_type self ∧
  cache self1 = cache self ∧ kwargs self1 = kwargs self.
Proof.
  destruct res as [outputs|e].
  - intros H. apply LM_call_ok in H as (? & ? & ? & ? & _ & _ & _ & _ & _ & H).
    by rewrite H.
  - intros H. apply LM_call_raise in H. by rewrite H.
Qed.

End call_facts.

(** ** The history *)

Section history_facts.
Context `{Ext : Externals}.
Implicit Types (self : LM) (st : process) (cs : list invocation).

(** C4: a run of calls appends one record for each call that returned, in
    the order the calls completed, and nothing for a call that raised. *)
Theorem history_records_returned_calls cs self st rs self1 st1 :
  run_calls cs self st = (rs, self1, st1) →
  ∃ new, history self1 = history self ++ new ∧
         length new = returned rs ∧
         entry_call <$> new
         = (λ co, (inv_prompt co.1, co.2)) <$> successes cs rs.
Proof.
  revert self st rs self1 st1.
  induction cs as [|c cs IH]; intros self st rs self1 st1; simpl.
  - intros [= <- <- <-]. exists []. by rewrite app_nil_r.
  - destruct (invoke c self st) as [[r self'] st'] eqn:Hc.
    destruct (run_calls cs self' st') as [[rs' self''] st''] eqn:Hcs.
    intros [= <- <- <-].
    apply IH in Hcs as (new & Hhist & Hlen & Hnew).
    unfold invoke in Hc. destruct r as [outputs|e].
    + apply LM_call_ok in Hc as (request & r & usage & cost & _ & _ & _ & _ & _ & ->).
      eexists (_ :: new). split_and!.
      * rewrite Hhist. simpl. by rewrite <-app_assoc.
      * unfold returned in *. rewrite filter_cons_True by done. simpl. by rewrite Hlen.
      * rewrite fmap_cons, Hnew. done.
    + apply LM_call_raise in Hc as ->.
      exists new. split_and!; [done| |done].
      unfold returned in *. by rewrite filter_cons_False.
Qed.

End history_facts.

(** ** Calls with the cache off *)

Section bypass_facts.
Context `{Ext : Externals}.
Implicit Types (self : LM) (st : process) (cs : list invocation).

(** One call with the cache off. *)
Lemma bypass_one_call c self st res self1 st1 :
  cache_off self c →
  invoke c self st = (res, self1, st1) →
  same_memo st st1 ∧
  ∃ new, backend_log st1 = backend_log st ++ new ∧ length new ≤ 1 ∧
         (is_ok res = true → length new = 1) ∧
         Forall (passes_cache (cache_control true true)) new.
Proof.
  unfold cache_off, invoke. intros Hoff. rewrite LM_call_unfold.
  destruct (build_request _ _ _ _) as [request|e].
  2:{ intros [= <- <- <-]. split; [done|]. exists []. rewrite app_nil_r.
      split_and!; [done|simpl; lia|done|done]. }
  destruct (select_completion _ _ _ _) as [r st'] eqn:Hsel.
  apply select_completion_off in Hsel as [Hmemo (new & Hlog & Hlen & Hone & Hall)];
    [|done].
  intros Hcall.
  assert (st1 = st' ∧ (is_ok res = true → is_ok r = true)) as [-> Hres].
  { destruct r as [r|e]; [|by injection Hcall as <- <- <-].
    destruct (response_outputs r), (response_usage r), (response_cost r);
      by injection Hcall as <- <- <-. }
  split; [done|]. exists new. split_and!; auto.
Qed.

Lemma litellm_completion_exact request directive st (r : result response) st1 :
  litellm_completion request directive st = (r, st1) →
  match (kwargs ← ujson_loads request; kw ← star kwargs;
         call_kwargs [("cache", directive)] kw) with
  | Ok args =>
      backend_log st1
      = backend_log st ++ [{| bc_api := ChatAPI; bc_args := args |}]
  | Raise e => st1 = st ∧ r = Raise e
  end.
Proof.
  unfold litellm_completion, mbind, proc_bind, result_bind, lift.
  destruct (ujson_loads request) as [v|e]; [|by intros [= <- <-]].
  destruct (star v) as [kw|e]; [|by intros [= <- <-]].
  destruct (call_kwargs _ kw) as [args|e]; [|by intros [= <- <-]].
  by intros [_ Hlog]%backend_spec.
Qed.

Lemma litellm_text_completion_exact request directive st (r : result response) st1 :
  litellm_text_completion request directive st = (r, st1) →
  match text_completion_args (os_getenv (world st)) request directive with
  | Ok args =>
      backend_log st1
      = backend_log st ++ [{| bc_api := TextAPI; bc_args := args |}]
  | Raise e => st1 = st ∧ r = Raise e
  end.
Proof.
  unfold litellm_text_completion, mbind, proc_bind, lift.
  destruct (text_completion_args _ request directive) as [args|e];
    [|by intros [= <- <-]].
  by intros [_ Hlog]%backend_spec.
Qed.

(** One call with the cache off, exactly: when its arguments for the
    backend come about, the backend is called once with them, whatever it
    answers; when they do not, the call raises what stopped it and the
    process is as before. *)
Lemma bypass_call_exact c self st res self1 st1 :
  cache_off self c →
  invoke c self st = (res, self1, st1) →
  match bypass_args self c st with
  | Ok args =>
      backend_log st1
      = backend_log st ++ [{| bc_api := api_of self; bc_args := args |}]
  | Raise e => st1 = st ∧ res = Raise e
  end.
Proof.
  unfold cache_off, invoke, bypass_args, request_of, api_of. intros Hoff.
  rewrite LM_call_unfold. unfold select_completion. rewrite Hoff.
  destruct (build_request _ _ _ _) as [request|e]; [|by intros [= <- <- <-]].
  cbn [mbind result_bind].
  destruct (decide (model_type self = "chat")).
  - destruct (litellm_completion _ _ _) as [r st'] eqn:Hc.
    apply litellm_completion_exact in Hc. intros Hcall.
    assert (st1 = st' ∧ (∀ e, r = Raise e → res = Raise e)) as [-> Hres].
    { destruct r as [r|e']; [|injection Hcall as <- <- <-; split; congruence].
      destruct (response_outputs r), (response_usage r), (response_cost r);
        by injection Hcall as <- <- <-. }
    destruct (_ ← ujson_loads request; _) as [args|e']; [done|].
    destruct Hc as [-> ->]. split; [done|]. by apply Hres.
  - destruct (litellm_text_completion _ _ _) as [r st'] eqn:Hc.
    apply litellm_text_completion_exact in Hc. intros Hcall.
    assert (st1 = st' ∧ (∀ e, r = Raise e → res = Raise e)) as [-> Hres].
    { destruct r as [r|e']; [|injection Hcall as <- <- <-; split; congruence].
      destruct (response_outputs r), (response_usage r), (response_cost r);
        by injection Hcall as <- <- <-. }
    destruct (text_completion_args _ _ _) as [args|e']; [done|].
    destruct Hc as [-> ->]. split; [done|]. by apply Hres.
Qed.

(** C5, as the code has it: calls with the effective cache flag off go to
    the completion function that is not memoised, which hands the backend
    [cache={"no-cache": True, "no-store": True}]; the memo tables stay as
    they were; every such call whose request gets as far as the backend
    makes exactly one backend call, whether the backend answers or
    refuses, and a call that raises before that makes none.  So a run
    makes as many backend calls as it has calls that get that far: at
    least as many as calls that return, and as many as calls when all of
    them return, however often a request is repeated. *)
Theorem cache_off_one_backend_call_each cs self st rs self1 st1 :
  Forall (cache_off self) cs →
  run_calls cs self st = (rs, self1, st1) →
  (∀ c request, c ∈ cs →
     select_completion self (effective_cache self (inv_kwargs c)) request
     = if decide (model_type self = "chat")
       then litellm_completion request (cache_control true true)
       else litellm_text_completion request (cache_control true true)) ∧
  same_memo st st1 ∧
  ∃ new, backend_log st1 = backend_log st ++ new ∧
         Forall (passes_cache (cache_control true true)) new ∧
         length new = reached_backend cs self st ∧
         returned rs ≤ length new ≤ length cs ∧
         (returned rs = length cs → length new = length cs).
Proof.
  intros Hoff Hrun. split.
  { intros c request Hc. rewrite Forall_forall in Hoff.
    specialize (Hoff c Hc). unfold cache_off in Hoff.
    unfold select_completion. rewrite Hoff. by case_decide. }
  revert self st rs self1 st1 Hoff Hrun.
  induction cs as [|c cs IH]; intros self st rs self1 st1 Hoff;
    cbn [run_calls reached_backend].
  - intros [= <- <- <-]. split; [done|]. exists []. rewrite app_nil_r.
    unfold returned. rewrite filter_nil. simpl. split_and!; done || lia.
  - apply Forall_cons in Hoff as [Hc Hcs].
    destruct (invoke c self st) as [[r self'] st'] eqn:Hinv.
    destruct (run_calls cs self' st') as [[rs' self''] st''] eqn:Hrun.
    intros [= <- <- <-]. cbn [fst snd].
    pose proof Hinv as Hcfg. apply LM_call_config in Hcfg as (_ & _ & Hcache & _).
    pose proof (bypass_call_exact _ _ _ _ _ _ Hc Hinv) as Hexact.
    apply bypass_one_call in Hinv as [[Hm1 Hm2] (new1 & Hlog1 & Hlen1 & Hone1 & Hall1)];
      [|done].
    apply IH in Hrun as [[Hm1' Hm2'] (new2 & Hlog2 & Hall2 & Hcount2 & Hlen2 & _)].
    2:{ eapply Forall_impl; [exact Hcs|]. intros c'. unfold cache_off, effective_cache.
        by rewrite Hcache. }
    split; [split; congruence|].
    exists (new1 ++ new2). rewrite Hlog2, Hlog1, <-app_assoc.
    split; [done|]. split; [by apply Forall_app|].
    rewrite length_app. unfold returned in *.
    assert (length new1 = if is_ok (bypass_args self c st) then 1 else 0) as Hnew1.
    { destruct (bypass_args self c st) as [args|e]; simpl.
      - rewrite Hlog1 in Hexact. apply app_inv_head in Hexact. by rewrite Hexact.
      - destruct Hexact as [-> _]. rewrite <-(app_nil_r (backend_log st)) in Hlog1 at 1.
        apply app_inv_head in Hlog1. by rewrite <-Hlog1. }
    split; [by rewrite Hnew1, Hcount2|].
    destruct (decide (is_ok r = true)) as [Hr|Hr].
    + rewrite filter_cons_True by done. specialize (Hone1 Hr). simpl. lia.
    + rewrite filter_cons_False by done. simpl. lia.
Qed.

End bypass_facts.

(** ** Calls with the cache on *)

Section memo_facts.
Context `{Ext : Externals}.
Implicit Types (self : LM) (st : process) (c : invocation).

(** A call that returned, made again with the same request string and the
    cache on: the second call returns from the memo table what the first
    got, and the process is not touched. *)
Lemma repeated_cached_call c1 c2 self st request outputs self1 st1 :
  truthy (effective_cache self (inv_kwargs c1)) = true →
  truthy (effective_cache self (inv_kwargs c2)) = true →
  request_of self c1 = Ok request →
  request_of self c2 = Ok request →
  invoke c1 self st = (Ok outputs, self1, st1) →
  ∃ r usage cost,
    self1 = history_append
              (entry_of self (inv_prompt c1) (inv_messages c1) (inv_kwargs c1)
                 r outputs usage cost) self ∧
    invoke c2 self1 st1
    = (Ok outputs,
       history_append
         (entry_of self (inv_prompt c2) (inv_messages c2) (inv_kwargs c2)
            r outputs usage cost) self1,
       st1) ∧
    ∃ new, backend_log st1 = backend_log st ++ new ∧ length new ≤ 1.
Proof.
  unfold request_of, invoke. intros Hon1 Hon2 Hreq1 Hreq2 Hcall.
  apply LM_call_ok in Hcall
    as (request' & r & usage & cost & Hreq & Hsel & Hout & Husage & Hcost & ->).
  rewrite Hreq1 in Hreq. injection Hreq as <-.
  exists r, usage, cost. split; [done|]. split.
  - rewrite LM_call_unfold.
    change (build_request (history_append _ self)) with (build_request self).
    rewrite Hreq2.
    change (select_completion (history_append _ self)) with (select_completion self).
    change (effective_cache (history_append _ self)) with (effective_cache self).
    rewrite (select_completion_again _ _ _ _ _ _ _ Hon1 Hon2 Hsel).
    by rewrite Hout, Husage, Hcost.
  - apply select_completion_on in Hsel as (new & Hlog & Hlen & _); eauto.
Qed.


(** C2 does not hold of the code: the record of a call served from the
    memo table repeats the cost of the call that filled the table.  (The
    comment at the place says that [cost] is [None] on a cache hit.) *)
Theorem memo_hit_repeats_cost c1 c2 self st request outputs self1 st1 :
  truthy (effective_cache self (inv_kwargs c1)) = true →
  truthy (effective_cache self (inv_kwargs c2)) = true →
  request_of self c1 = Ok request →
  request_of self c2 = Ok request →
  invoke c1 self st = (Ok outputs, self1, st1) →
  ∃ self2 e1 e2,
    invoke c2 self1 st1 = (Ok outputs, self2, st1) ∧
    history self2 = history self ++ [e1; e2] ∧
    e_response e2 = e_response e1 ∧
    e_cost e2 = e_cost e1.
Proof.
  intros Hon1 Hon2 Hreq1 Hreq2 Hcall.
  destruct (repeated_cached_call _ _ _ _ _ _ _ _ Hon1 Hon2 Hreq1 Hreq2 Hcall)
    as (r & usage & cost & -> & Hsecond & _).
  eexists _, _, _. split; [exact Hsecond|]. simpl.
  by rewrite <-app_assoc.
Qed.

End memo_facts.

(** ** Credentials: kept out of the history, not out of the request *)

Section scrub_facts.
Context `{Ext : Externals}.
Implicit Types (self : LM) (st : process) (c : invocation) (s : string).

Lemma append_cons a s1 s2 : String a s1 +:+ s2 = String a (s1 +:+ s2).
Proof. reflexivity. Qed.

Lemma append_nil_r s : s +:+ "" = s.
Proof. induction s as [|a s IH]; [done|]. by rewrite append_cons, IH. Qed.

Lemma append_assoc s1 s2 s3 : (s1 +:+ s2) +:+ s3 = s1 +:+ s2 +:+ s3.
Proof. induction s1 as [|a s1 IH]; [done|]. by rewrite !append_cons, IH. Qed.

Lemma occurs_in_refl s : occurs_in s s.
Proof. exists "", "". by rewrite append_nil_r. Qed.

Lemma occurs_in_wrap sub s before after :
  occurs_in sub s → occurs_in sub (before +:+ s +:+ after).
Proof.
  intros (b & a & ->). exists (before +:+ b), (a +:+ after).
  by rewrite !append_assoc.
Qed.

Lemma str_join_occurs sep (parts : list string) s :
  s ∈ parts → occurs_in s (str_join sep parts).
Proof.
  induction parts as [|p parts IH]; intros Hin.
  - by apply elem_of_nil in Hin.
  - apply elem_of_cons in Hin as [->|Hin].
    + destruct parts as [|q parts]; simpl.
      * apply occurs_in_refl.
      * exists "", (sep +:+ str_join sep (q :: parts)). done.
    + specialize (IH Hin). destruct parts as [|q parts].
      * by apply elem_of_nil in Hin.
      * change (str_join sep (p :: q :: parts))
          with (p +:+ sep +:+ str_join sep (q :: parts)).
        destruct IH as (b & a & ->). exists (p +:+ sep +:+ b), a.
        by rewrite !append_assoc.
Qed.

Lemma dumps_items_in (f : pyval → result string) (d : pydict) ss k v :
  dumps_items f d = Ok ss → (k, v) ∈ d →
  ∃ sv, f v = Ok sv ∧ (dumps_str k +:+ ":" +:+ sv) ∈ ss.
Proof.
  revert ss. induction d as [|[k0 v0] d IH]; intros ss Hd Hin.
  - by apply elem_of_nil in Hin.
  - simpl in Hd. unfold mbind, result_bind in Hd.
    destruct (f v0) as [s0|] eqn:Hv0; [|done].
    destruct (dumps_items f d) as [ss'|] eqn:Hd'; [|done].
    injection Hd as <-.
    apply elem_of_cons in Hin as [[= -> ->]|Hin].
    + exists s0. split; [done|left].
    + destruct (IH ss' eq_refl Hin) as (sv & Hsv & Hss).
      exists sv. split; [done|by right].
Qed.

(** Every item of a dictionary is in what [ujson.dumps] prints for it. *)
Lemma dumps_dict_occurs (d : pydict) s k v :
  dumps (PDict d) = Ok s → (k, v) ∈ d →
  ∃ sv, dumps v = Ok sv ∧ occurs_in (dumps_str k +:+ ":" +:+ sv) s.
Proof.
  unfold dumps. simpl. unfold mbind, result_bind.
  destruct (dumps_items _ d) as [ss|] eqn:Hd; [|done].
  intros [= <-] Hin.
  destruct (dumps_items_in _ _ _ _ _ Hd Hin) as (sv & Hsv & Hss).
  exists sv. split; [done|].
  apply (occurs_in_wrap _ _ "{" "}"). by apply str_join_occurs.
Qed.

Lemma scrub_keys (kw : pydict) k :
  k ∈ keys (scrub kw) → startswith k "api_" = false.
Proof.
  unfold keys, scrub. intros ([k' v] & -> & Hin)%list_elem_of_fmap.
  apply list_elem_of_filter in Hin as [Hk _]. simpl in *.
  by destruct (startswith k' "api_").
Qed.

Lemma escape_char_plain a : plain_char a = true → escape_char a = String a "".
Proof.
  unfold plain_char, escape_char. set (n := nat_of_ascii a). intros H.
  repeat (apply andb_prop in H as [H ?]).
  repeat match goal with
         | H : negb _ = true |- _ => apply negb_true_iff, Nat.eqb_neq in H
         | H : (_ <=? _) = true |- _ => apply Nat.leb_le in H
         end.
  repeat match goal with
         | |- context [(n =? ?k)] =>
             destruct (Nat.eqb_spec n k); [lia|]
         end.
  replace ((n <? 32) || (127 <? n)) with false; [done|].
  symmetry. apply orb_false_iff. split; apply Nat.ltb_ge; lia.
Qed.

Lemma escape_plain s : plain s = true → escape s = s.
Proof.
  induction s as [|a s IH]; [done|]. cbn [plain escape].
  intros [Ha Hs]%andb_prop. by rewrite escape_char_plain, IH.
Qed.

(** Of a plain string [ujson.dumps] prints the characters themselves,
    between double quotes. *)
Lemma dumps_str_plain s : plain s = true → dumps_str s = quoted s.
Proof. intros H. unfold dumps_str, quoted. by rewrite escape_plain. Qed.

(** C6: the record of a call that returned holds no parameter whose key
    starts with [api_], and the request string that went to the
    completion function holds every parameter of the call, those with
    such keys among them, as [key:value] in JSON: a plain key such as
    [api_key] stands there between double quotes, character for
    character, followed by the colon and the value, and so does a plain
    string value such as the key itself. *)
Theorem api_keys_scrubbed_from_history_only c self st outputs self1 st1 :
  invoke c self st = (Ok outputs, self1, st1) →
  ∃ e request,
    history self1 = history self ++ [e] ∧
    (∀ k, k ∈ keys (e_kwargs e) → startswith k "api_" = false) ∧
    request_of self c = Ok request ∧
    select_completion self (effective_cache self (inv_kwargs c)) request st
    = (Ok (e_response e), st1) ∧
    (∀ k v, dict_get k (merged_kwargs self (inv_kwargs c)) = Some v →
            ∃ sv, dumps v = Ok sv ∧
                  occurs_in (dumps_str k +:+ ":" +:+ sv) request ∧
                  (plain k = true → occurs_in (quoted k +:+ ":" +:+ sv) request) ∧
                  (∀ s, v = PStr s → plain s = true → sv = quoted s)).
Proof.
  unfold invoke, request_of.
  intros (request & r & usage & cost & Hreq & Hsel & _ & _ & _ & ->)%LM_call_ok.
  eexists _, request. split_and!; [done| |done|done|].
  - apply scrub_keys.
  - intros k v Hget%dict_get_Some_in.
    unfold build_request, request_dict, call_kwargs, mbind, result_bind in Hreq.
    destruct (forallb _ _); [|done].
    destruct (dumps_dict_occurs _ _ k v Hreq) as (sv & Hsv & Hocc).
    { apply elem_of_app. by right. }
    exists sv. split_and!; [done|done| |].
    + intros Hk. by rewrite <-(dumps_str_plain k).
    + intros s -> Hs. unfold dumps in Hsv. cbn [dumps_with] in Hsv.
      injection Hsv as <-. by apply dumps_str_plain.
Qed.

End scrub_facts.

(** ** [LM.__init__]: the guard for the o1 family *)

Section init_facts.
Implicit Types (kw named : pydict).

Lemma call_kwargs_disjoint named kw :
  (∀ k, k ∈ keys kw → k ∉ keys named) → call_kwargs named kw = Ok (named ++ kw).
Proof.
  intros H. unfold call_kwargs.
  replace (forallb _ (keys kw)) with true; [done|].
  symmetry. apply forallb_forall. intros k Hk%list_elem_of_In.
  apply bool_decide_eq_true. auto.
Qed.

(** C7: for a model name with [o1-] in it, construction with temperature
    0.0 fails whatever [max_tokens] is (with the assertion of the guard for
    the default 1000), and construction with temperature 1.0 and
    [max_tokens] 5000 returns the client; for a model name without [o1-],
    construction returns the client for every temperature and
    [max_tokens]. *)
Theorem o1_guard (model model_type : string) (cache : pyval) kw :
  "temperature" ∉ keys kw → "max_tokens" ∉ keys kw →
  let built temperature max_tokens :=
    Ok {| model := model; model_type := model_type; cache := cache;
          kwargs := [("temperature", temperature); ("max_tokens", max_tokens)] ++ kw;
          history := [] |} in
  (str_in "o1-" model = true →
     (∀ max_tokens,
        is_ok (LM_init model model_type (PFloat 0) max_tokens cache kw) = false) ∧
     LM_init model model_type (PFloat 0) (PInt 1000) cache kw
     = Raise (AssertionError o1_message) ∧
     LM_init model model_type (PFloat 1) (PInt 5000) cache kw
     = built (PFloat 1) (PInt 5000)) ∧
  (str_in "o1-" model = false →
     ∀ temperature max_tokens,
       LM_init model model_type temperature max_tokens cache kw
       = built temperature max_tokens).
Proof.
  intros Ht Hm built.
  assert (∀ t m, call_kwargs [("temperature", t); ("max_tokens", m)] kw
                 = Ok ([("temperature", t); ("max_tokens", m)] ++ kw)) as Hkw.
  { intros t m. apply call_kwargs_disjoint. intros k Hk.
    rewrite !keys_cons, !not_elem_of_cons.
    split_and!; [by intros ->|by intros ->|apply not_elem_of_nil]. }
  unfold LM_init, mbind, result_bind. split.
  - intros ->. split_and!.
    + intros max_tokens. rewrite Hkw.
      destruct max_tokens; simpl; try done.
      all: by rewrite andb_false_r.
    + by rewrite Hkw.
    + by rewrite Hkw.
  - intros -> t m. by rewrite Hkw.
Qed.

End init_facts.

(** ** [LM.finetune] *)

Section finetune_facts.
Context `{Ext : Externals}.
Implicit Types (self : LM) (st : process).

(** C8: with the experimental flag off, [finetune] raises and the process
    is as before: nothing is submitted.  With the flag on and a model
    that neither [is_openai_model] nor [is_anyscale_model] accepts, it
    raises the [ValueError] of an unsupported model, and again the
    process is as before.  Otherwise it returns the job handle of the
    provider, and the executor log has three more events: an executor of
    one worker created, the training function of the provider submitted
    with that handle, the model, the pairs and the configuration, and the
    executor shut down without waiting.  Nothing else of the process
    changes. *)
Theorem finetune_dispatch self (pairs config : pyval) st :
  (experimental st = false →
     finetune self pairs config st
     = (Raise (AssertionError experimental_message), st)) ∧
  (experimental st = true →
   is_openai_model (model self) = false →
   is_anyscale_model (model self) = false →
     finetune self pairs config st
     = (Raise (ValueError (unsupported_message (model self))), st)) ∧
  (experimental st = true →
   ∀ fn job,
     (is_openai_model (model self) = true ∧
      fn = finetune_openai ∧ job = FinetuneJobOpenAI) ∨
     (is_openai_model (model self) = false ∧
      is_anyscale_model (model self) = true ∧
      fn = finetune_anyscale ∧ job = FinetuneJobAnyScale) →
     ∃ st1,
       finetune self pairs config st = (Ok job, st1) ∧
       executor_log st1
       = executor_log st ++ [ExecutorCreated 1;
                             Submitted fn job (model self) pairs config;
                             ExecutorShutdown false] ∧
       lru_completion st1 = lru_completion st ∧
       lru_text_completion st1 = lru_text_completion st ∧
       world st1 = world st ∧
       backend_log st1 = backend_log st ∧
       experimental st1 = experimental st ∧
       debug_log st1 = debug_log st).
Proof.
  unfold finetune, mbind, proc_bind, raise, start_training, mret, proc_ret.
  split_and!.
  - by intros ->.
  - by intros -> -> ->.
  - intros Hflag fn job [(-> & -> & ->)|(-> & -> & -> & ->)];
      eexists; (split; [rewrite Hflag; reflexivity|]); split_and!; reflexivity.
Qed.

End finetune_facts.

(** ** [LM.launch] and [LM.kill] *)

Section lifecycle_facts.
Context `{Ext : Externals}.
Implicit Types (self : LM) (st : process).

(** C10: for a model that [is_self_hosted_model] does not accept,
    [launch] and [kill] return with the client as it was (model, model
    type, cache flag, parameters and history); the one thing they do is
    the debug message. *)
Theorem launch_kill_leave_client self st :
  is_self_hosted_model (model self) = false →
  (∃ msg, launch self st = (Ok tt, self, record_debug msg st)) ∧
  (∃ msg, kill self st = (Ok tt, self, record_debug msg st)).
Proof.
  intros Hhosted.
  unfold launch, kill, mbind, meth_bind, this, run, logger_debug, mret, meth_ret.
  rewrite Hhosted. split; eexists; reflexivity.
Qed.

End lifecycle_facts.

(** ** Prompt and messages *)

Section message_facts.
Context `{Ext : Externals}.
Implicit Types (self : LM) (kw : pydict).

(** C9, as the code has it: messages that are not empty win over the
    prompt, which then has no part in the request (the same string, or the
    same error, as without a prompt); empty or absent messages give way to
    the prompt, wrapped as one user message; and with neither, that one
    message has the content [None], which serialises as [null] without
    an error. *)
Theorem messages_win_unless_empty self (prompt messages : pyval) kw :
  (truthy messages = true →
     request_messages prompt messages = messages ∧
     build_request self prompt messages kw = build_request self PNone messages kw) ∧
  (truthy messages = false →
     request_messages prompt messages = PList [user_message prompt]) ∧
  request_messages PNone PNone
  = PList [PDict [("role", PStr "user"); ("content", PNone)]] ∧
  dumps (request_messages PNone PNone)
  = Ok ("[{" +:+ dumps_str "role" +:+ ":" +:+ dumps_str "user" +:+ ","
        +:+ dumps_str "content" +:+ ":null}]").
Proof.
  unfold build_request, request_dict, request_messages, py_or.
  split_and!.
  - by intros ->.
  - by intros ->.
  - reflexivity.
  - reflexivity.
Qed.

End message_facts.

(** * Further properties of the request pipeline *)

(** ** Merged parameters *)

Section merge_facts.
Context `{Ext : Externals}.
Implicit Types (self : LM) (d base over kw : pydict) (k : string) (v : pyval).

Lemma dict_get_set k' k v d :
  dict_get k' (dict_set k v d) = if decide (k' = k) then Some v else dict_get k' d.
Proof.
  induction d as [|[k0 v0] d IH]; simpl.
  - repeat case_decide; congruence.
  - destruct (decide (k = k0)); simpl; repeat case_decide; subst; congruence.
Qed.

Lemma dict_get_merge k base over :
  dict_wf over →
  dict_get k (dict_merge base over)
  = match dict_get k over with
    | Some v => Some v
    | None => dict_get k base
    end.
Proof.
  unfold dict_merge. revert base.
  induction over as [|[k0 v0] over IH]; intros base Hwf; [done|].
  apply dict_wf_cons in Hwf as [Hk0 Hwf]. cbn [fold_left fst snd].
  rewrite IH by done. rewrite dict_get_set. cbn [dict_get].
  destruct (decide (k = k0)) as [->|Hne]; [|done].
  apply dict_get_None in Hk0. by rewrite Hk0.
Qed.

Lemma dict_del_set k v d : dict_del k (dict_set k v d) = dict_del k d.
Proof.
  unfold dict_del. induction d as [|[k0 v0] d IH]; simpl.
  - rewrite filter_cons_False by (simpl; tauto). done.
  - destruct (decide (k = k0)) as [->|Hne].
    + rewrite !filter_cons_False by (simpl; tauto). done.
    + rewrite !filter_cons_True by done. by rewrite IH.
Qed.

(** Call parameters win over the client's own, key by key, and the
    client's own stand where the call gives none; the [cache] flag of a
    call is no parameter of the request. *)
Theorem call_parameters_override self kw k :
  dict_wf kw →
  dict_get k (merged_kwargs self kw)
  = if decide (k = "cache") then dict_get k (kwargs self)
    else match dict_get k kw with
         | Some v => Some v
         | None => dict_get k (kwargs self)
         end.
Proof.
  intros Hwf. unfold merged_kwargs, dict_pop. cbn [snd].
  rewrite dict_get_merge by auto using dict_wf_del.
  rewrite dict_get_del. by case_decide.
Qed.

(** The request string does not depend on the cache flag, be it given
    with the call or held by the client, nor on the kind of the client:
    calls with the cache on and off share one memo key. *)
Theorem request_ignores_cache_flag (a b : LM) (prompt messages : pyval) kw v :
  model a = model b → kwargs a = kwargs b →
  build_request a prompt messages (dict_set "cache" v kw)
  = build_request b prompt messages kw.
Proof.
  intros Hmodel Hkwargs.
  unfold build_request, request_dict, merged_kwargs, dict_pop. cbn [snd].
  by rewrite dict_del_set, Hmodel, Hkwargs.
Qed.

End merge_facts.

(** ** The memo tables *)

Section table_facts.
Context `{Ext : Externals}.
Implicit Types (self : LM) (st : process) (c : invocation).

(** The whole call on a hit. *)
Lemma LM_call_hit prompt messages kw self st request r :
  truthy (effective_cache self kw) = true →
  build_request self prompt messages kw = Ok request →
  memo_of self st !! request = Some r →
  LM_call prompt messages kw self st
  = match read_response r with
    | Ok (outputs, usage, cost) =>
        (Ok outputs,
         history_append (entry_of self prompt messages kw r outputs usage cost) self,
         st)
    | Raise e => (Raise e, self, st)
    end.
Proof.
  intros Hon Hreq Hget. rewrite LM_call_unfold, Hreq.
  rewrite (select_completion_hit _ _ _ _ _ Hon Hget).
  unfold read_response, mbind, result_bind.
  by destruct (response_outputs r), (response_usage r), (response_cost r).
Qed.

(** After a call with the cache on that returned, the memo table of the
    client's kind holds, under the request string, the response the
    history records. *)
Theorem returned_call_is_memoised c self st outputs self1 st1 :
  truthy (effective_cache self (inv_kwargs c)) = true →
  invoke c self st = (Ok outputs, self1, st1) →
  ∃ request e,
    request_of self c = Ok request ∧
    history self1 = history self ++ [e] ∧
    memo_of self st1 !! request = Some (e_response e).
Proof.
  unfold invoke, request_of. intros Hon Hcall.
  apply LM_call_ok in Hcall
    as (request & r & usage & cost & Hreq & Hsel & _ & _ & _ & ->).
  eexists request, _. split_and!; [done|done|]. simpl.
  by eapply select_completion_fills.
Qed.

(** A call with the cache on whose request is in the memo table is
    settled by the stored response alone: the process stays as it is (no
    backend call, no table update), and the call returns the outputs of
    that response, or raises what reading it raises. *)
Theorem memo_hit_is_settled_by_the_table c self st request r :
  truthy (effective_cache self (inv_kwargs c)) = true →
  request_of self c = Ok request →
  memo_of self st !! request = Some r →
  invoke c self st
  = match read_response r with
    | Ok (outputs, usage, cost) =>
        (Ok outputs,
         history_append
           (entry_of self (inv_prompt c) (inv_messages c) (inv_kwargs c)
              r outputs usage cost) self,
         st)
    | Raise e => (Raise e, self, st)
    end.
Proof. unfold invoke, request_of. apply LM_call_hit. Qed.

(** The memo tables belong to the process, not to a client: what a call on
    one client stored, a call with the same request string on another
    client of the same kind returns, without a backend call. *)
Theorem memo_is_shared_between_clients (a b : LM) c1 c2 st request outputs a1 st1 :
  same_mode a b →
  truthy (effective_cache a (inv_kwargs c1)) = true →
  truthy (effective_cache b (inv_kwargs c2)) = true →
  request_of a c1 = Ok request →
  request_of b c2 = Ok request →
  invoke c1 a st = (Ok outputs, a1, st1) →
  ∃ b1 e, invoke c2 b st1 = (Ok outputs, b1, st1) ∧
          history b1 = history b ++ [e] ∧ e_outputs e = outputs.
Proof.
  unfold invoke, request_of. intros Hmode Hon1 Hon2 Hreq1 Hreq2 Hcall.
  apply LM_call_ok in Hcall
    as (request' & r & usage & cost & Hreq & Hsel & Hout & Husage & Hcost & ->).
  rewrite Hreq1 in Hreq. injection Hreq as <-.
  apply select_completion_fills in Hsel; [|done].
  rewrite (same_mode_memo _ _ _ Hmode) in Hsel.
  rewrite (LM_call_hit _ _ _ _ _ _ _ Hon2 Hreq2 Hsel).
  unfold read_response, mbind, result_bind. rewrite Hout, Husage, Hcost.
  eexists _, _. split_and!; done.
Qed.

(** Repeats of a call that returned, with the cache on: however many,
    each returns the same outputs and appends its record, and the process
    stays as the first call left it. *)
Theorem repeats_never_reach_the_backend c self st outputs self1 st1 (n : nat) :
  truthy (effective_cache self (inv_kwargs c)) = true →
  invoke c self st = (Ok outputs, self1, st1) →
  ∃ selfn,
    run_calls (replicate n c) self1 st1 = (replicate n (Ok outputs), selfn, st1) ∧
    length (history selfn) = length (history self1) + n.
Proof.
  unfold invoke. intros Hon Hcall.
  apply LM_call_ok in Hcall
    as (request & r & usage & cost & Hreq & Hsel & Hout & Husage & Hcost & ->).
  apply select_completion_fills in Hsel; [|done].
  set (self1 := history_append _ self).
  assert (∀ self', model self' = model self → model_type self' = model_type self →
                   cache self' = cache self → kwargs self' = kwargs self →
                   ∃ selfn,
                     run_calls (replicate n c) self' st1
                     = (replicate n (Ok outputs), selfn, st1) ∧
                     length (history selfn) = length (history self') + n) as Hall.
  { induction n as [|n IH]; intros self' Hm Hmt Hc Hk.
    - exists self'. split; [done|]. simpl. lia.
    - cbn [replicate run_calls]. unfold invoke.
      rewrite (LM_call_hit _ _ _ self' st1 request r).
      + unfold read_response, mbind, result_bind. rewrite Hout, Husage, Hcost.
        edestruct (IH (history_append
                         (entry_of self' (inv_prompt c) (inv_messages c)
                            (inv_kwargs c) r outputs usage cost) self'))
          as (selfn & -> & Hlen); [done..|].
        exists selfn. split; [done|]. rewrite Hlen. simpl.
        rewrite length_app. simpl. lia.
      + unfold effective_cache. by rewrite Hc.
      + rewrite <-Hreq. unfold build_request, request_dict, merged_kwargs.
        by rewrite Hm, Hk, Hc.
      + unfold memo_of in *. by rewrite Hmt. }
  apply Hall; done.
Qed.

Lemma backend_api which args st r st1 :
  backend which args st = (r, st1) →
  same_memo st st1 ∧
  ∃ new, backend_log st1 = backend_log st ++ new ∧
         Forall (λ b, bc_api b = which) new.
Proof.
  intros [Hmemo Hlog]%backend_spec. split; [done|].
  eexists. split; [done|]. by apply Forall_singleton.
Qed.

Lemma no_backend_call which st :
  ∃ new, backend_log st = backend_log st ++ new ∧
         Forall (λ b : backend_call, bc_api b = which) new.
Proof. exists []. by rewrite app_nil_r. Qed.

Lemma litellm_completion_api request directive st r st1 :
  litellm_completion request directive st = (r, st1) →
  same_memo st st1 ∧
  ∃ new, backend_log st1 = backend_log st ++ new ∧
         Forall (λ b, bc_api b = ChatAPI) new.
Proof.
  unfold litellm_completion, mbind, proc_bind, lift.
  destruct (ujson_loads request) as [v|e]; simpl.
  2:{ intros [= <- <-]. split; [done|]. apply no_backend_call. }
  destruct (star v) as [kw|e]; simpl.
  2:{ intros [= <- <-]. split; [done|]. apply no_backend_call. }
  destruct (call_kwargs _ kw) as [args|e]; simpl.
  2:{ intros [= <- <-]. split; [done|]. apply no_backend_call. }
  apply backend_api.
Qed.

Lemma litellm_text_completion_api request directive st r st1 :
  litellm_text_completion request directive st = (r, st1) →
  same_memo st st1 ∧
  ∃ new, backend_log st1 = backend_log st ++ new ∧
         Forall (λ b, bc_api b = TextAPI) new.
Proof.
  unfold litellm_text_completion, mbind, proc_bind, lift.
  destruct (text_completion_args _ request directive) as [args|e].
  2:{ intros [= <- <-]. split; [done|]. apply no_backend_call. }
  apply backend_api.
Qed.

(** What a completion does to the tables and the log, by kind of client:
    the other kind's table and entry point are out of reach, and the own
    table keeps what it has. *)
Lemma select_completion_frame self flag request st r st1 :
  select_completion self flag request st = (r, st1) →
  lru_completion st ⊆ lru_completion st1 ∧
  lru_text_completion st ⊆ lru_text_completion st1 ∧
  ∃ new, backend_log st1 = backend_log st ++ new ∧
         if decide (model_type self = "chat")
         then lru_text_completion st1 = lru_text_completion st ∧
              Forall (λ b, bc_api b = ChatAPI) new
         else lru_completion st1 = lru_completion st ∧
              Forall (λ b, bc_api b = TextAPI) new.
Proof.
  unfold select_completion.
  destruct (decide (model_type self = "chat")), (truthy flag).
  - intros [(x & _ & _ & ->)|(Hnone & st' & Hf & ->)]%lru_cache_spec.
    { split_and!; [done..|]. destruct (no_backend_call ChatAPI st) as (new & ? & ?).
      by exists new. }
    apply litellm_completion_api in Hf as [[Hm1 Hm2] (new & Hlog & Hall)].
    destruct r as [x|err]; simpl.
    + split_and!.
      * rewrite Hm1. by apply insert_subseteq.
      * by rewrite Hm2.
      * by exists new.
    + split_and!; [by rewrite Hm1|by rewrite Hm2|by exists new].
  - intros [[Hm1 Hm2] (new & Hlog & Hall)]%litellm_completion_api.
    split_and!; [by rewrite Hm1|by rewrite Hm2|by exists new].
  - intros [(x & _ & _ & ->)|(Hnone & st' & Hf & ->)]%lru_cache_spec.
    { split_and!; [done..|]. destruct (no_backend_call TextAPI st) as (new & ? & ?).
      by exists new. }
    apply litellm_text_completion_api in Hf as [[Hm1 Hm2] (new & Hlog & Hall)].
    destruct r as [x|err]; simpl.
    + split_and!.
      * by rewrite Hm1.
      * rewrite Hm2. by apply insert_subseteq.
      * by exists new.
    + split_and!; [by rewrite Hm1|by rewrite Hm2|by exists new].
  - intros [[Hm1 Hm2] (new & Hlog & Hall)]%litellm_text_completion_api.
    split_and!; [by rewrite Hm1|by rewrite Hm2|by exists new].
Qed.

Lemma LM_call_frame prompt messages kw self st res self1 st1 :
  LM_call prompt messages kw self st = (res, self1, st1) →
  st1 = st ∨
  ∃ request r,
    select_completion self (effective_cache self kw) request st = (r, st1).
Proof.
  rewrite LM_call_unfold.
  destruct (build_request _ _ _ _) as [request|e]; [|intros [= <- <- <-]; by left].
  destruct (select_completion _ _ _ _) as [[r|e] st'] eqn:Hsel.
  - destruct (response_outputs r), (response_usage r), (response_cost r);
      intros [= <- <- <-]; right; eauto.
  - intros [= <- <- <-]. right. eauto.
Qed.

(** A chat client calls [litellm.completion] only and leaves the memo
    table of the text completions alone; any other client calls
    [litellm.text_completion] only and leaves the table of the chat
    completions alone. *)
Theorem chat_and_text_do_not_mix c self st res self1 st1 :
  invoke c self st = (res, self1, st1) →
  ∃ new, backend_log st1 = backend_log st ++ new ∧
         if decide (model_type self = "chat")
         then lru_text_completion st1 = lru_text_completion st ∧
              Forall (λ b, bc_api b = ChatAPI) new
         else lru_completion st1 = lru_completion st ∧
              Forall (λ b, bc_api b = TextAPI) new.
Proof.
  unfold invoke. intros [->|(request & r & Hsel)]%LM_call_frame.
  - exists []. rewrite app_nil_r. by case_decide.
  - by apply select_completion_frame in Hsel as (_ & _ & Hnew).
Qed.

(** The memo tables only grow: whatever the calls, with the cache on or
    off, returning or raising, an entry once stored stays, with the
    response it was stored with. *)
Theorem memo_only_grows cs self st rs self1 st1 :
  run_calls cs self st = (rs, self1, st1) →
  lru_completion st ⊆ lru_completion st1 ∧
  lru_text_completion st ⊆ lru_text_completion st1.
Proof.
  revert self st rs self1 st1.
  induction cs as [|c cs IH]; intros self st rs self1 st1; simpl.
  - by intros [= <- <- <-].
  - destruct (invoke c self st) as [[r self'] st'] eqn:Hc.
    destruct (run_calls cs self' st') as [[rs' self''] st''] eqn:Hcs.
    intros [= <- <- <-].
    apply IH in Hcs as [Hchat Htext].
    unfold invoke in Hc. apply LM_call_frame in Hc as [->|(request & x & Hsel)];
      [done|].
    apply select_completion_frame in Hsel as (Hchat' & Htext' & _).
    split; etrans; eauto.
Qed.

(** Calls never change the configuration of the client: the parameters
    given with a call hold for that call only. *)
Theorem calls_keep_the_configuration cs self st :
  let self1 := (run_calls cs self st).1.2 in
  model self1 = model self ∧ model_type self1 = model_type self ∧
  cache self1 = cache self ∧ kwargs self1 = kwargs self.
Proof.
  revert self st. induction cs as [|c cs IH]; intros self st; simpl; [done|].
  destruct (invoke c self st) as [[r self'] st'] eqn:Hc.
  specialize (IH self' st').
  destruct (run_calls cs self' st') as [[rs' self''] st'']. simpl in *.
  unfold invoke in Hc. apply LM_call_config in Hc as (Hm & Hmt & Hc & Hk).
  destruct IH as (Hm' & Hmt' & Hc' & Hk').
  split_and!; congruence.
Qed.

End table_facts.

(** ** [litellm_text_completion] *)

Section text_facts.
Context `{Ext : Externals}.
Implicit Types (s : string) (d kw : pydict) (st : process).

Lemma mapM_cons {A B} (f : A → result B) x l :
  mapM f (x :: l) = y ← f x; k ← mapM f l; Ok (y :: k).
Proof. reflexivity. Qed.

Lemma mapM_as_str_snoc (l : list pyval) s pieces :
  mapM as_str (l ++ [PStr s]) = Ok pieces → ∃ ps, pieces = ps ++ [s].
Proof.
  revert pieces. induction l as [|v l IH]; intros pieces.
  - intros [= <-]. by exists [].
  - rewrite <-app_comm_cons, mapM_cons.
    destruct (mapM as_str (l ++ [PStr s])) as [ps'|]; unfold mbind, result_bind;
      destruct (as_str v) as [p|]; try done.
    intros [= <-]. destruct (IH ps' eq_refl) as (ps & ->). by exists (p :: ps).
Qed.

Lemma mapM_as_str_not_str (l : list pyval) v :
  v ∈ l → (∀ s, v ≠ PStr s) → mapM as_str l = Raise TypeError.
Proof.
  intros Hin Hv. induction l as [|x l IH]; [by apply elem_of_nil in Hin|].
  rewrite mapM_cons.
  apply elem_of_cons in Hin as [<-|Hin].
  - unfold mbind, result_bind. destruct v; try done. by destruct (Hv s).
  - rewrite (IH Hin). unfold mbind, result_bind.
    destruct (as_str x) as [p|e] eqn:Hx; [done|]. destruct x; by inversion Hx.
Qed.

Lemma str_join_snoc sep (ps : list string) s :
  ∃ body, str_join sep (ps ++ [s]) = body +:+ s.
Proof.
  induction ps as [|p ps [body IH]].
  - by exists "".
  - exists (p +:+ sep +:+ body). rewrite <-app_comm_cons.
    destruct (ps ++ [s]) as [|q qs] eqn:Hq.
    { by destruct ps. }
    change (str_join sep (p :: q :: qs)) with (p +:+ sep +:+ str_join sep (q :: qs)).
    by rewrite IH, !append_assoc.
Qed.

Lemma prefix_char (c a : ascii) s :
  String.prefix (String c "") (String a s) = bool_decide (c = a).
Proof.
  simpl. destruct (ascii_dec c a) as [->|Hne].
  - rewrite bool_decide_eq_true_2 by done. by destruct s.
  - by rewrite bool_decide_eq_false_2.
Qed.

(** [s.split(c, 1)]: one piece when [c] is not in [s], else what is before
    and what is after the first [c]. *)
Lemma split_once_spec (c : ascii) s :
  (split_once c s = [s] ∧ str_in (String c "") s = false) ∨
  (∃ before after, split_once c s = [before; after] ∧
                   s = before +:+ String c after ∧
                   str_in (String c "") before = false).
Proof.
  induction s as [|a s IH].
  - left. done.
  - cbn [split_once str_in]. rewrite prefix_char.
    destruct (Ascii.eqb a c) eqn:Hac.
    + apply Ascii.eqb_eq in Hac as ->. right. by exists "", s.
    + apply Ascii.eqb_neq in Hac.
      rewrite bool_decide_eq_false_2 by congruence. simpl.
      destruct IH as [[-> Hno]|(before & after & -> & -> & Hno)].
      * left. done.
      * right. exists (String a before), after. split_and!; [done..|].
        cbn [str_in]. rewrite prefix_char, bool_decide_eq_false_2 by congruence.
        done.
Qed.

Lemma dict_del_four (d : pydict) :
  dict_del "messages" (dict_del "api_base" (dict_del "api_key" (dict_del "model" d)))
  = filter (λ kv, kv.1 ∉ ["model"; "api_key"; "api_base"; "messages"]) d.
Proof.
  unfold dict_del. rewrite !list_filter_filter.
  apply list_filter_iff. intros [k v]. simpl.
  rewrite !not_elem_of_cons. split.
  - intros [[[? ?] ?] ?]. split_and!; try done. apply not_elem_of_nil.
  - intros (? & ? & ? & ? & _). split_and!; done.
Qed.

(** The arguments [litellm_text_completion] assembles, when it gets that
    far: [cache], a model renamed into [text-completion-openai/...], the
    key and the base, and a prompt that ends with [BEGIN RESPONSE:], in
    this order; then every other parameter of the decoded request, each
    with its value and in the order of the request, [model], [api_key],
    [api_base] and [messages] taken out.  None of those parameters is
    called [cache] or [prompt]. *)
Theorem text_completion_arguments (getenv : string → option string)
    (request : string) (directive : pyval) (args : pydict) :
  text_completion_args getenv request directive = Ok args →
  ∃ d name api_key api_base body,
    ujson_loads request = Ok (PDict d) ∧
    let rest :=
      filter (λ kv, kv.1 ∉ ["model"; "api_key"; "api_base"; "messages"]) d in
    args = [("cache", directive);
            ("model", PStr ("text-completion-openai/" +:+ name));
            ("api_key", api_key); ("api_base", api_base);
            ("prompt", PStr (body +:+ "BEGIN RESPONSE:"))] ++ rest ∧
    ∀ k, k ∈ keys rest →
         k ∉ ["cache"; "model"; "api_key"; "api_base"; "prompt"; "messages"].
Proof.
  unfold text_completion_args, mbind, result_bind.
  destruct (ujson_loads request) as [v|]; [|done].
  destruct v as [| | | | |?|d|?]; try done. cbn [pop_required].
  destruct (dict_get "model" d) as [m|]; [|done].
  destruct (py_split_slash m) as [parts|]; [|done].
  unfold dict_pop. cbn [fst snd].
  destruct (dict_get "messages" _) as [msgs|]; [|done].
  destruct (py_iter msgs) as [xs|]; [|done].
  destruct (mapM (py_getitem "content") xs) as [contents|]; [|done].
  destruct (mapM as_str _) as [pieces|] eqn:Hpieces; [|done].
  apply mapM_as_str_snoc in Hpieces as (ps & ->).
  destruct (str_join_snoc (newline +:+ newline) ps "BEGIN RESPONSE:") as (body & ->).
  rewrite dict_del_four.
  unfold call_kwargs. destruct (forallb _ _) eqn:Hkeys; [|done].
  intros [= <-]. eexists d, _, _, _, body. split; [done|]. split; [done|].
  intros k Hk. rewrite forallb_forall in Hkeys.
  specialize (Hkeys k). rewrite <-list_elem_of_In in Hkeys.
  specialize (Hkeys Hk). apply bool_decide_eq_true in Hkeys.
  assert (k ≠ "messages") as Hmsg.
  { intros ->. unfold keys in Hk.
    apply list_elem_of_fmap in Hk as ([k v] & Hkv & Hin). simpl in Hkv. subst k.
    apply list_elem_of_filter in Hin as [Hno _]. simpl in Hno.
    rewrite !not_elem_of_cons in Hno. tauto. }
  unfold keys in Hkeys. simpl in Hkeys.
  rewrite !not_elem_of_cons in Hkeys. rewrite !not_elem_of_cons. tauto.
Qed.

(** Which provider and which model: for a model [p/name] the provider is
    [p], the part before the first slash, and the backend gets [name]; for
    a model without a slash the provider is [openai].  The key and the
    base of the request are used when they are there and not empty, else
    the environment variables [<provider>_API_KEY] and
    [<provider>_API_BASE]. *)
Theorem text_completion_provider (getenv : string → option string)
    (request : string) (directive : pyval) d (m : string) (args : pydict) :
  ujson_loads request = Ok (PDict d) →
  dict_get "model" d = Some (PStr m) →
  text_completion_args getenv request directive = Ok args →
  ∃ provider name,
    ((str_in "/" m = false ∧ provider = "openai" ∧ name = m) ∨
     (m = provider +:+ "/" +:+ name ∧ str_in "/" provider = false)) ∧
    dict_get "model" args = Some (PStr ("text-completion-openai/" +:+ name)) ∧
    dict_get "api_key" args
    = Some (py_or (from_option id PNone (dict_get "api_key" d))
                  (of_getenv (getenv (provider +:+ "_API_KEY")))) ∧
    dict_get "api_base" args
    = Some (py_or (from_option id PNone (dict_get "api_base" d))
                  (of_getenv (getenv (provider +:+ "_API_BASE")))).
Proof.
  intros Hloads Hmodel. unfold text_completion_args, mbind, result_bind.
  rewrite Hloads. cbn [pop_required]. rewrite Hmodel. cbn [py_split_slash].
  destruct (dict_get "messages" _) as [msgs|]; [|done].
  destruct (py_iter msgs) as [xs|]; [|done].
  destruct (mapM (py_getitem "content") xs) as [contents|]; [|done].
  destruct (mapM as_str _) as [pieces|]; [|done].
  unfold call_kwargs. destruct (forallb _ _); [|done].
  intros [= <-]. unfold dict_pop. cbn [fst snd].
  rewrite !dict_get_del. repeat (rewrite decide_False by done).
  destruct (split_once_spec "/" m) as [[-> Hno]|(before & after & -> & -> & Hno)].
  - exists "openai", m. split; [by left|]. done.
  - exists before, after. split; [by right|]. done.
Qed.

(** A message content that is not a string stops the text completion with
    a [TypeError] before the backend is reached: [str.join] takes strings
    only.  (So a text client called with neither prompt nor messages, whose
    one message has the content [None], cannot get through.) *)
Theorem text_completion_needs_string_contents (request : string)
    (directive : pyval) d (m : string) (msgs contents : list pyval) v st :
  ujson_loads request = Ok (PDict d) →
  dict_get "model" d = Some (PStr m) →
  dict_get "messages" d = Some (PList msgs) →
  mapM (py_getitem "content") msgs = Ok contents →
  v ∈ contents → (∀ s, v ≠ PStr s) →
  litellm_text_completion request directive st = (Raise TypeError, st).
Proof.
  intros Hloads Hmodel Hmsgs Hcontents Hin Hv.
  assert (text_completion_args (os_getenv (world st)) request directive
          = Raise TypeError) as Hargs.
  { unfold text_completion_args. rewrite Hloads.
    cbn [mbind result_bind pop_required]. rewrite Hmodel.
    cbn [mbind result_bind py_split_slash]. unfold dict_pop. cbn [fst snd].
    rewrite !dict_get_del. repeat (rewrite decide_False by done).
    rewrite Hmsgs. cbn [mbind result_bind py_iter]. rewrite Hcontents.
    cbn [mbind result_bind].
    rewrite (mapM_as_str_not_str _ v); [done| |done].
    apply elem_of_app. by left. }
  unfold litellm_text_completion, mbind, proc_bind, lift. by rewrite Hargs.
Qed.

End text_facts.

(** ** A response that cannot be read *)

Section unreadable_facts.
Context `{Ext : Externals}.
Implicit Types (self : LM) (st : process) (c : invocation).

(** When the backend answers a call with the cache on with a response
    [LM.__call__] cannot read (no choices, a choice without text, no
    usage), the call raises and records nothing, yet the response is in
    the memo table: the same call raises again, from the table, without
    a backend call. *)
Theorem unreadable_response_is_memoised c self st request r e st1 :
  truthy (effective_cache self (inv_kwargs c)) = true →
  request_of self c = Ok request →
  select_completion self (effective_cache self (inv_kwargs c)) request st
  = (Ok r, st1) →
  read_response r = Raise e →
  invoke c self st = (Raise e, self, st1) ∧
  memo_of self st1 !! request = Some r ∧
  invoke c self st1 = (Raise e, self, st1).
Proof.
  unfold invoke, request_of. intros Hon Hreq Hsel Hread.
  pose proof (select_completion_fills _ _ _ _ _ _ Hon Hsel) as Hmemo.
  split_and!; [|done|].
  - rewrite LM_call_unfold, Hreq, Hsel. revert Hread.
    unfold read_response, mbind, result_bind.
    destruct (response_outputs r), (response_usage r), (response_cost r);
      congruence.
  - rewrite (LM_call_hit _ _ _ _ _ _ _ Hon Hreq Hmemo). by rewrite Hread.
Qed.

End unreadable_facts.

(** ** [inspect_history] *)

Section inspect_facts.
Variable capitalize : string → string.
Implicit Types (lm : LM) (out : list string) (item : HistoryEntry).

Lemma history_slice_all (n : Z) (h : list HistoryEntry) :
  (n = 0 ∨ Z.of_nat (length h) ≤ n)%Z → history_slice n h = h.
Proof.
  unfold history_slice. intros [->|Hn]; [done|].
  destruct (0 <? n)%Z eqn:Hpos.
  - replace (length h - Z.to_nat n) with 0 by lia. done.
  - apply Z.ltb_ge in Hpos. replace (Z.to_nat (- n)) with 0 by lia. done.
Qed.

(** [inspect_history(0)] does not show nothing: it shows the whole
    history, as every [n] from the length of the history on does. *)
Theorem inspect_zero_shows_everything lm (n : Z) out :
  (n = 0 ∨ Z.of_nat (length (history lm)) ≤ n)%Z →
  inspect_history capitalize lm n out
  = (show_entries capitalize (history lm);;
     print (newline +:+ newline +:+ newline)) out.
Proof.
  intros Hn. unfold inspect_history, _inspect_history.
  by rewrite history_slice_all.
Qed.

Lemma show_message_fine msg out :
  is_fine (show_message capitalize msg out).1 = showable_message msg.
Proof.
  unfold show_message, showable_message, mbind, out_bind, out_of, print.
  destruct msg as [| | | | |?|d|?]; try done. cbn [py_getitem].
  unfold mbind, result_bind.
  destruct (dict_get "role" d) as [[]|]; try done. cbn [str_method].
  destruct (dict_get "content" d) as [[]|]; done.
Qed.

Lemma show_message_cases msg out :
  (showable_message msg = true ∧
   ∃ out', show_message capitalize msg out = (Fine tt, out')) ∨
  (showable_message msg = false ∧
   ∃ f out', show_message capitalize msg out = (Fails f, out')).
Proof.
  pose proof (show_message_fine msg out) as H.
  destruct (show_message capitalize msg out) as [[[]|f] out'] eqn:Hshow;
    simpl in H; [left|right]; eauto.
Qed.

Lemma show_messages_fine (msgs : list pyval) out :
  is_fine (show_messages capitalize msgs out).1 = forallb showable_message msgs.
Proof.
  revert out. induction msgs as [|msg msgs IH]; intros out; [done|].
  cbn [show_messages forallb]. unfold mbind, out_bind.
  destruct (show_message_cases msg out) as [[-> (out' & ->)]|[-> (f & out' & ->)]].
  - apply IH.
  - done.
Qed.

Lemma show_entry_fine item out :
  is_fine (show_entry capitalize item out).1 = showable item.
Proof.
  unfold show_entry, showable. unfold mbind at 1 2, out_bind at 1 2, print at 1.
  unfold out_of at 1.
  destruct (py_iter _) as [msgs|]; [|done].
  unfold mbind at 1, out_bind at 1.
  pose proof (show_messages_fine msgs
                (out ++ [(newline +:+ newline +:+ newline) +:+ newline])) as Hmsgs.
  destruct (show_messages capitalize msgs _) as [[[]|f] out'];
    simpl in Hmsgs; rewrite <-Hmsgs; [|done].
  unfold mbind, out_bind, print, out_of, fails.
  destruct (e_outputs item) as [|[] rest]; try done.
  by destruct (1 <? length _)%nat.
Qed.

Lemma show_entries_fine (items : list HistoryEntry) out :
  is_fine (show_entries capitalize items out).1 = forallb showable items.
Proof.
  revert out. induction items as [|item items IH]; intros out; [done|].
  cbn [show_entries forallb]. unfold mbind, out_bind.
  pose proof (show_entry_fine item out) as Hitem.
  destruct (show_entry capitalize item out) as [[[]|f] out'];
    simpl in Hitem; rewrite <-Hitem; [apply IH|done].
Qed.

(** [inspect_history(n)] returns exactly when every entry it is to show
    has messages that are dictionaries with a string role and a string
    content, and a first output that is a string; else it raises at the
    first entry that has not (an entry with no outputs, or with [None]
    for a content or for the first output). *)
Theorem inspect_returns_iff_showable lm (n : Z) out :
  is_fine (inspect_history capitalize lm n out).1
  = forallb showable (history_slice n (history lm)).
Proof.
  unfold inspect_history, _inspect_history, mbind, out_bind.
  pose proof (show_entries_fine (history_slice n (history lm)) out) as H.
  destruct (show_entries capitalize _ out) as [[[]|f] out']; simpl in H;
    by rewrite <-H.
Qed.

End inspect_facts.

Section inspect_after_call.
Context `{Ext : Externals}.
Variable capitalize : string → string.

(** A call with neither prompt nor messages that returns is recorded with
    its one message of content [None], and [inspect_history(1)] then
    raises an [AttributeError] on that content, after the header of the
    message. *)
Theorem call_without_prompt_cannot_be_inspected (kw : pydict) (self : LM)
    (st : process) outputs self1 st1 out :
  LM_call PNone PNone kw self st = (Ok outputs, self1, st1) →
  inspect_history capitalize self1 1 out
  = (Fails (Exn AttributeError),
     out ++ [(newline +:+ newline +:+ newline) +:+ newline;
             _red (capitalize "user" +:+ " message:") newline +:+ newline]).
Proof.
  intros (request & r & usage & cost & _ & _ & _ & _ & _ & ->)%LM_call_ok.
  unfold inspect_history, _inspect_history, history_slice. simpl.
  rewrite length_app. simpl.
  replace (length (history self) + 1 - 1) with (length (history self) + 0) by lia.
  rewrite drop_app_length'; [|lia]. simpl.
  unfold mbind, out_bind, show_entry. simpl.
  unfold mbind, out_bind, print, out_of. simpl.
  unfold show_message, mbind, out_bind, print, out_of. simpl.
  by rewrite <-app_assoc.
Qed.

End inspect_after_call.

(** ** Outputs *)

Section entry_facts.
Context `{Ext : Externals}.
Implicit Types (self : LM) (st : process) (c : invocation).

Lemma mapM_choice_output (cs : list choice) (outputs : list pyval) :
  mapM choice_output cs = Ok outputs →
  Forall2 (λ ch o, ch = ChatChoice o ∨ ch = TextChoice o) cs outputs.
Proof.
  revert outputs. induction cs as [|ch cs IH]; intros outputs.
  - intros [= <-]. constructor.
  - change (mapM choice_output (ch :: cs))
      with (y ← choice_output ch; k ← mapM choice_output cs; Ok (y :: k)).
    destruct (mapM choice_output cs) as [k|]; unfold mbind, result_bind;
      destruct ch as [o|o|]; try done.
    all: intros [= <-]; constructor; auto.
Qed.

(** A call that returns gives one output for each choice of the response
    it records, in the order of the choices: the content of the message
    for a chat choice, the text for a text choice. *)
Theorem one_output_per_choice c self st outputs self1 st1 :
  invoke c self st = (Ok outputs, self1, st1) →
  ∃ e cs,
    history self1 = history self ++ [e] ∧
    e_outputs e = outputs ∧
    choices (e_response e) = Some cs ∧
    Forall2 (λ ch o, ch = ChatChoice o ∨ ch = TextChoice o) cs outputs.
Proof.
  unfold invoke.
  intros (request & r & usage & cost & _ & _ & Hout & _ & _ & ->)%LM_call_ok.
  unfold response_outputs in Hout.
  destruct (choices r) as [cs|] eqn:Hcs; [|done].
  eexists _, cs. split_and!; [done|done|done|].
  by apply mapM_choice_output.
Qed.

End entry_facts.

(** * Examples, on the test double *)

#[local] Existing Instance stub.



(** Three calls with the cache off, the third refused by the provider: two
    records. *)
Lemma history_records_returned_calls_witness :
  let cs := [ask [("cache", PBool false)]; ask [("cache", PBool false)];
             ask [("cache", PBool false)]] in
  let out := run_calls cs stub_lm (stub_process [true; true; false] false) in
  is_ok <$> out.1.1 = [true; true; false] ∧
  ∃ new, history out.1.2 = history stub_lm ++ new ∧
         length new = returned out.1.1 ∧
         entry_call <$> new
         = (λ co, (inv_prompt co.1, co.2)) <$> successes cs out.1.1.
Proof.
  intros cs out. split; [vm_compute; reflexivity|].
  apply (history_records_returned_calls cs stub_lm
           (stub_process [true; true; false] false) out.1.1 out.1.2 out.2).
  subst out. by destruct (run_calls _ _ _) as [[??]?].
Defined.

(** Three calls with the cache off, the second refused by the provider:
    two return, and the backend has been called three times. *)
Lemma cache_off_one_backend_call_each_witness :
  let cs := [ask [("cache", PBool false)]; ask [("cache", PBool false)];
             ask [("cache", PBool false)]] in
  let st := stub_process [true; false; true] false in
  let out := run_calls cs stub_lm st in
  (returned out.1.1 = 2 ∧ length (backend_log out.2) = 3 ∧
   reached_backend cs stub_lm st = 3) ∧
  (∀ c request, c ∈ cs →
     select_completion stub_lm (effective_cache stub_lm (inv_kwargs c)) request
     = if decide (model_type stub_lm = "chat")
       then litellm_completion request (cache_control true true)
       else litellm_text_completion request (cache_control true true)) ∧
  same_memo st out.2 ∧
  ∃ new, backend_log out.2 = backend_log st ++ new ∧
         Forall (passes_cache (cache_control true true)) new ∧
         length new = reached_backend cs stub_lm st ∧
         returned out.1.1 ≤ length new ≤ length cs ∧
         (returned out.1.1 = length cs → length new = length cs).
Proof.
  intros cs st out. split; [split_and!; vm_compute; reflexivity|].
  apply (cache_off_one_backend_call_each cs stub_lm st
           out.1.1 out.1.2 out.2).
  - repeat constructor.
  - subst out. by destruct (run_calls _ _ _) as [[??]?].
Defined.


(** The same two calls: both records carry the cost 0.25, the second is not
    [None]. *)
Lemma memo_hit_repeats_cost_witness :
  let st := stub_process [true] false in
  let out := run_calls [ask []; ask []] stub_lm st in
  (e_cost <$> history out.1.2 = [PFloat 0.25; PFloat 0.25] ∧
   length (backend_log out.2) = 1) ∧
  ∃ self2 e1 e2,
    invoke (ask []) (invoke (ask []) stub_lm st).1.2
      (invoke (ask []) stub_lm st).2
    = (Ok [PStr "4"], self2, (invoke (ask []) stub_lm st).2) ∧
    history self2 = history stub_lm ++ [e1; e2] ∧
    e_response e2 = e_response e1 ∧
    e_cost e2 = e_cost e1.
Proof.
  intros st out. split; [split; vm_compute; reflexivity|].
  apply (memo_hit_repeats_cost (ask []) (ask []) stub_lm st
           (from_option id "" (match request_of stub_lm (ask []) with
                               | Ok s => Some s
                               | Raise _ => None
                               end)));
    vm_compute; reflexivity.
Defined.

(** [lm("2+2=", api_key="sk-test")]: the record has the two parameters
    of the client only, and the request string holds the key and the
    secret, quoted, with the colon between them. *)
Lemma api_keys_scrubbed_from_history_only_witness :
  let c := ask [("api_key", PStr "sk-test")] in
  let st := stub_process [true] false in
  let out := invoke c stub_lm st in
  let q := String "034"%char "" in
  (keys <$> (e_kwargs <$> history out.1.2) = [["temperature"; "max_tokens"]] ∧
   str_in (q +:+ "api_key" +:+ q +:+ ":" +:+ q +:+ "sk-test" +:+ q)
     (value_of "" (request_of stub_lm c)) = true) ∧
  ∃ e request,
    history out.1.2 = history stub_lm ++ [e] ∧
    (∀ k, k ∈ keys (e_kwargs e) → startswith k "api_" = false) ∧
    request_of stub_lm c = Ok request ∧
    select_completion stub_lm (effective_cache stub_lm (inv_kwargs c)) request st
    = (Ok (e_response e), out.2) ∧
    (∀ k v, dict_get k (merged_kwargs stub_lm (inv_kwargs c)) = Some v →
            ∃ sv, dumps v = Ok sv ∧
                  occurs_in (dumps_str k +:+ ":" +:+ sv) request ∧
                  (plain k = true → occurs_in (quoted k +:+ ":" +:+ sv) request) ∧
                  (∀ s, v = PStr s → plain s = true → sv = quoted s)).
Proof.
  intros c st out q. split; [split; vm_compute; reflexivity|].
  apply (api_keys_scrubbed_from_history_only c stub_lm st [PStr "4"]).
  vm_compute. reflexivity.
Defined.

(** [dspy.LM("o1-mini", ...)] and [dspy.LM("gpt-4o-mini", ...)]. *)
Lemma o1_guard_witness :
  (str_in "o1-" "o1-mini" = true ∧ str_in "o1-" "gpt-4o-mini" = false) ∧
  ((∀ max_tokens,
      is_ok (LM_init "o1-mini" "chat" (PFloat 0) max_tokens (PBool true) []) = false) ∧
   LM_init "o1-mini" "chat" (PFloat 0) (PInt 1000) (PBool true) []
   = Raise (AssertionError o1_message) ∧
   LM_init "o1-mini" "chat" (PFloat 1) (PInt 5000) (PBool true) []
   = Ok {| model := "o1-mini"; model_type := "chat"; cache := PBool true;
           kwargs := [("temperature", PFloat 1); ("max_tokens", PInt 5000)];
           history := [] |}) ∧
  (∀ temperature max_tokens,
     LM_init "gpt-4o-mini" "chat" temperature max_tokens (PBool true) []
     = Ok {| model := "gpt-4o-mini"; model_type := "chat"; cache := PBool true;
             kwargs := [("temperature", temperature); ("max_tokens", max_tokens)];
             history := [] |}).
Proof.
  split; [split; reflexivity|]. split.
  - apply (o1_guard "o1-mini" "chat" (PBool true) []);
      [apply not_elem_of_nil | apply not_elem_of_nil | reflexivity].
  - apply (o1_guard "gpt-4o-mini" "chat" (PBool true) []);
      [apply not_elem_of_nil | apply not_elem_of_nil | reflexivity].
Defined.

(** [finetune] with the flag off; with the flag on for a model of no
    provider, for an OpenAI model and for an AnyScale model.  The
    executor log is empty at the start: it stays empty in the first two
    cases and has the three events in the other two. *)
Lemma finetune_dispatch_witness :
  let llama : LM := {| model := "llama-3"; model_type := "chat"; cache := PBool true;
                       kwargs := []; history := [] |} in
  let hosted : LM := {| model := "anyscale/llama-3"; model_type := "chat";
                        cache := PBool true; kwargs := []; history := [] |} in
  let off := stub_process [] false in
  let on := stub_process [] true in
  (executor_log (finetune stub_lm (PList []) (PDict []) off).2 = [] ∧
   executor_log (finetune llama (PList []) (PDict []) on).2 = [] ∧
   executor_log (finetune stub_lm (PList []) (PDict []) on).2
   = [ExecutorCreated 1;
      Submitted finetune_openai FinetuneJobOpenAI "gpt-4o-mini" (PList []) (PDict []);
      ExecutorShutdown false] ∧
   executor_log (finetune hosted (PList []) (PDict []) on).2
   = [ExecutorCreated 1;
      Submitted finetune_anyscale FinetuneJobAnyScale "anyscale/llama-3"
        (PList []) (PDict []);
      ExecutorShutdown false]) ∧
  finetune stub_lm (PList []) (PDict []) off
  = (Raise (AssertionError experimental_message), off) ∧
  finetune llama (PList []) (PDict []) on
  = (Raise (ValueError (unsupported_message "llama-3")), on) ∧
  (∃ st1, finetune stub_lm (PList []) (PDict []) on = (Ok FinetuneJobOpenAI, st1) ∧
          executor_log st1
          = executor_log on
            ++ [ExecutorCreated 1;
                Submitted finetune_openai FinetuneJobOpenAI (model stub_lm)
                  (PList []) (PDict []);
                ExecutorShutdown false]) ∧
  (∃ st1, finetune hosted (PList []) (PDict []) on = (Ok FinetuneJobAnyScale, st1) ∧
          executor_log st1
          = executor_log on
            ++ [ExecutorCreated 1;
                Submitted finetune_anyscale FinetuneJobAnyScale (model hosted)
                  (PList []) (PDict []);
                ExecutorShutdown false]).
Proof.
  intros llama hosted off on. split; [split_and!; reflexivity|].
  destruct (finetune_dispatch stub_lm (PList []) (PDict []) off) as (Hoff & _ & _).
  destruct (finetune_dispatch llama (PList []) (PDict []) on) as (_ & Hnone & _).
  destruct (finetune_dispatch stub_lm (PList []) (PDict []) on) as (_ & _ & Hopenai).
  destruct (finetune_dispatch hosted (PList []) (PDict []) on) as (_ & _ & Hanyscale).
  split; [exact (Hoff eq_refl)|]. split; [exact (Hnone eq_refl eq_refl eq_refl)|].
  split.
  - destruct (Hopenai eq_refl finetune_openai FinetuneJobOpenAI) as (st1 & H1 & H2 & _).
    { left. split_and!; reflexivity. }
    exists st1. by split.
  - destruct (Hanyscale eq_refl finetune_anyscale FinetuneJobAnyScale)
      as (st1 & H1 & H2 & _).
    { right. split_and!; reflexivity. }
    exists st1. by split.
Defined.

(** [lm.launch()] and [lm.kill()] on a client whose model is not
    self-hosted. *)
Lemma launch_kill_leave_client_witness :
  let st := stub_process [true] false in
  is_self_hosted_model (model stub_lm) = false ∧
  (∃ msg, launch stub_lm st = (Ok tt, stub_lm, record_debug msg st)) ∧
  (∃ msg, kill stub_lm st = (Ok tt, stub_lm, record_debug msg st)).
Proof.
  intros st. split; [reflexivity|].
  apply (launch_kill_leave_client stub_lm st). reflexivity.
Defined.

(** C9 fails as stated: [lm("2+2=", messages=[])] is given both, and the
    request is built from the prompt, not from the messages. *)
Lemma empty_messages_give_way_to_prompt :
  request_dict stub_lm (PStr "2+2=") (PList []) []
  = Ok [("model", PStr "gpt-4o-mini");
        ("messages", PList [user_message (PStr "2+2=")]);
        ("temperature", PFloat 0); ("max_tokens", PInt 1000)] ∧
  request_dict stub_lm (PStr "2+2=") (PList []) []
  ≠ request_dict stub_lm PNone (PList []) [].
Proof. split; [reflexivity|]. vm_compute. discriminate. Qed.

(** [lm("2+2=", messages=[...])] with one system message, and [lm()]. *)
Lemma messages_win_unless_empty_witness :
  let system := PList [PDict [("role", PStr "system"); ("content", PStr "Be brief.")]] in
  (truthy system = true ∧ truthy (PList []) = false) ∧
  (request_messages (PStr "2+2=") system = system ∧
   build_request stub_lm (PStr "2+2=") system []
   = build_request stub_lm PNone system []) ∧
  request_messages (PStr "2+2=") (PList []) = PList [user_message (PStr "2+2=")] ∧
  request_messages PNone PNone
  = PList [PDict [("role", PStr "user"); ("content", PNone)]].
Proof.
  intros system. split; [split; reflexivity|].
  destruct (messages_win_unless_empty stub_lm (PStr "2+2=") system [])
    as (Hwin & _ & _ & _).
  destruct (messages_win_unless_empty stub_lm (PStr "2+2=") (PList []) [])
    as (_ & Hempty & Hneither & _).
  split; [exact (Hwin eq_refl)|]. split; [exact (Hempty eq_refl) | exact Hneither].
Defined.


(** C5 fails as stated: [lm("2+2=", cache=False, model="gpt-4o")] raises
    the [TypeError] of a keyword given twice while the request is built,
    and the backend is not reached. *)
Lemma bad_request_reaches_no_backend :
  let c := ask [("cache", PBool false); ("model", PStr "gpt-4o")] in
  let st := stub_process [true] false in
  let out := invoke c stub_lm st in
  truthy (effective_cache stub_lm (inv_kwargs c)) = false ∧
  out.1.1 = Raise TypeError ∧
  backend_log out.2 = [].
Proof. intros c st out. split_and!; vm_compute; reflexivity. Qed.

(** ** Further examples *)

(** [lm("2+2=", temperature=1, n=2)]: the call's temperature wins. *)
Lemma call_parameters_override_witness :
  let kw := [("temperature", PInt 1); ("n", PInt 2)] in
  dict_get "temperature" (merged_kwargs stub_lm kw)
  = (if decide ("temperature" = "cache") then dict_get "temperature" (kwargs stub_lm)
     else match dict_get "temperature" kw with
          | Some v => Some v
          | None => dict_get "temperature" (kwargs stub_lm)
          end).
Proof.
  intros kw. apply (call_parameters_override stub_lm kw "temperature").
  unfold dict_wf. compute_done.
Defined.

(** [lm("2+2=", n=2, cache=False)] and [other_lm("2+2=", n=2)]. *)
Lemma request_ignores_cache_flag_witness :
  build_request stub_lm (PStr "2+2=") PNone
    (dict_set "cache" (PBool false) [("n", PInt 2)])
  = build_request other_lm (PStr "2+2=") PNone [("n", PInt 2)].
Proof.
  apply (request_ignores_cache_flag stub_lm other_lm (PStr "2+2=") PNone
           [("n", PInt 2)] (PBool false)); reflexivity.
Defined.

(** [lm("2+2=")], served. *)
Lemma returned_call_is_memoised_witness :
  let st := stub_process [true] false in
  let out := invoke (ask []) stub_lm st in
  ∃ request e,
    request_of stub_lm (ask []) = Ok request ∧
    history out.1.2 = history stub_lm ++ [e] ∧
    memo_of stub_lm out.2 !! request = Some (e_response e).
Proof.
  intros st out.
  apply (returned_call_is_memoised (ask []) stub_lm st [PStr "4"] out.1.2 out.2);
    vm_compute; reflexivity.
Defined.

(** The same call on a process whose table has the request already. *)
Lemma memo_hit_is_settled_by_the_table_witness :
  let st1 := (invoke (ask []) stub_lm (stub_process [true] false)).2 in
  let r := stub_answer ChatAPI in
  invoke (ask []) stub_lm st1
  = match read_response r with
    | Ok (outputs, usage, cost) =>
        (Ok outputs,
         history_append
           (entry_of stub_lm (inv_prompt (ask [])) (inv_messages (ask []))
              (inv_kwargs (ask [])) r outputs usage cost) stub_lm,
         st1)
    | Raise e => (Raise e, stub_lm, st1)
    end.
Proof.
  intros st1 r.
  apply (memo_hit_is_settled_by_the_table (ask []) stub_lm st1
           (value_of "" (request_of stub_lm (ask []))) r);
    vm_compute; reflexivity.
Defined.

(** [lm("2+2=")] on one client, then on another: the script has one
    entry, and both calls return. *)
Lemma memo_is_shared_between_clients_witness :
  let st := stub_process [true] false in
  let first := invoke (ask []) stub_lm st in
  ∃ b1 e, invoke (ask []) other_lm first.2 = (Ok [PStr "4"], b1, first.2) ∧
          history b1 = history other_lm ++ [e] ∧ e_outputs e = [PStr "4"].
Proof.
  intros st first.
  apply (memo_is_shared_between_clients stub_lm other_lm (ask []) (ask []) st
           (value_of "" (request_of stub_lm (ask []))) [PStr "4"] first.1.2 first.2);
    try (vm_compute; reflexivity).
  unfold same_mode. done.
Defined.

(** [lm("2+2=")] four times, the provider serving one call only. *)
Lemma repeats_never_reach_the_backend_witness :
  let st := stub_process [true] false in
  let first := invoke (ask []) stub_lm st in
  ∃ selfn,
    run_calls (replicate 3 (ask [])) first.1.2 first.2
    = (replicate 3 (Ok [PStr "4"]), selfn, first.2) ∧
    length (history selfn) = length (history first.1.2) + 3.
Proof.
  intros st first.
  apply (repeats_never_reach_the_backend (ask []) stub_lm st [PStr "4"]
           first.1.2 first.2 3); vm_compute; reflexivity.
Defined.

(** A chat call: one call of [litellm.completion]. *)
Lemma chat_and_text_do_not_mix_witness :
  let st := stub_process [true] false in
  let out := invoke (ask []) stub_lm st in
  ∃ new, backend_log out.2 = backend_log st ++ new ∧
         if decide (model_type stub_lm = "chat")
         then lru_text_completion out.2 = lru_text_completion st ∧
              Forall (λ b, bc_api b = ChatAPI) new
         else lru_completion out.2 = lru_completion st ∧
              Forall (λ b, bc_api b = TextAPI) new.
Proof.
  intros st out.
  apply (chat_and_text_do_not_mix (ask []) stub_lm st out.1.1 out.1.2 out.2).
  subst out. by destruct (invoke _ _ _) as [[??]?].
Defined.

(** Two calls, the second with the cache off. *)
Lemma memo_only_grows_witness :
  let st := stub_process [true; true] false in
  let out := run_calls [ask []; ask [("cache", PBool false)]] stub_lm st in
  lru_completion st ⊆ lru_completion out.2 ∧
  lru_text_completion st ⊆ lru_text_completion out.2.
Proof.
  intros st out.
  apply (memo_only_grows [ask []; ask [("cache", PBool false)]] stub_lm st
           out.1.1 out.1.2 out.2).
  subst out. by destruct (run_calls _ _ _) as [[??]?].
Defined.

(** The text completion of [text_lm("2+2=")], with the key in the
    environment. *)
Lemma text_completion_arguments_witness :
  let getenv k := if decide (k = "together_API_KEY") then Some "sk-env" else None in
  let request := value_of "" (request_of (Ext := stub_more) text_lm (ask [])) in
  let args := value_of [] (text_completion_args (Ext := stub_more) getenv request
                             (cache_control true true)) in
  keys args = ["cache"; "model"; "api_key"; "api_base"; "prompt";
               "temperature"; "max_tokens"] ∧
  ∃ d name api_key api_base body,
    ujson_loads (Externals := stub_more) request = Ok (PDict d) ∧
    let rest :=
      filter (λ kv, kv.1 ∉ ["model"; "api_key"; "api_base"; "messages"]) d in
    args = [("cache", cache_control true true);
            ("model", PStr ("text-completion-openai/" +:+ name));
            ("api_key", api_key); ("api_base", api_base);
            ("prompt", PStr (body +:+ "BEGIN RESPONSE:"))] ++ rest ∧
    ∀ k, k ∈ keys rest →
         k ∉ ["cache"; "model"; "api_key"; "api_base"; "prompt"; "messages"].
Proof.
  intros getenv request args. split; [vm_compute; reflexivity|].
  apply (text_completion_arguments (Ext := stub_more) getenv request
           (cache_control true true) args).
  vm_compute. reflexivity.
Defined.

Lemma text_completion_provider_witness :
  let getenv k := if decide (k = "together_API_KEY") then Some "sk-env" else None in
  let request := value_of "" (request_of (Ext := stub_more) text_lm (ask [])) in
  let args := value_of [] (text_completion_args (Ext := stub_more) getenv request
                             (cache_control true true)) in
  let d := match request_with "together/llama-3" (PStr "2+2=") with
           | PDict d => d
           | _ => []
           end in
  dict_get "api_key" args = Some (PStr "sk-env") ∧
  ∃ provider name,
    ((str_in "/" "together/llama-3" = false ∧ provider = "openai" ∧
      name = "together/llama-3") ∨
     ("together/llama-3" = provider +:+ "/" +:+ name ∧
      str_in "/" provider = false)) ∧
    dict_get "model" args = Some (PStr ("text-completion-openai/" +:+ name)) ∧
    dict_get "api_key" args
    = Some (py_or (from_option id PNone (dict_get "api_key" d))
                  (of_getenv (getenv (provider +:+ "_API_KEY")))) ∧
    dict_get "api_base" args
    = Some (py_or (from_option id PNone (dict_get "api_base" d))
                  (of_getenv (getenv (provider +:+ "_API_BASE")))).
Proof.
  intros getenv request args d. split; [vm_compute; reflexivity|].
  apply (text_completion_provider (Ext := stub_more) getenv request
           (cache_control true true) d "together/llama-3" args);
    vm_compute; reflexivity.
Defined.

(** The text completion of [text_lm()], whose one message has the content
    [None]. *)
Lemma text_completion_needs_string_contents_witness :
  let c := {| inv_prompt := PNone; inv_messages := PNone; inv_kwargs := [] |} in
  let request := value_of "" (request_of (Ext := stub_more) text_lm c) in
  let st := double_process stub_answer
              [request_with "gpt-4o-mini" (PStr "2+2=");
               request_with "gpt-4o-mini" PNone;
               request_with "together/llama-3" (PStr "2+2=");
               request_with "together/llama-3" PNone] [true] in
  litellm_text_completion (Ext := stub_more) request (cache_control true true) st
  = (Raise TypeError, st).
Proof.
  intros c request st.
  apply (text_completion_needs_string_contents (Ext := stub_more) request
           (cache_control true true)
           (match request_with "together/llama-3" PNone with
            | PDict d => d
            | _ => []
            end)
           "together/llama-3" [user_message PNone] [PNone] PNone st);
    try (vm_compute; reflexivity).
  - apply list_elem_of_singleton. reflexivity.
  - intros s. discriminate.
Defined.

(** [lm("2+2=")] twice against the provider whose choice has no text. *)
Lemma unreadable_response_is_memoised_witness :
  let st := double_process mute_answer
              [request_with "gpt-4o-mini" (PStr "2+2=")] [true] in
  let request := value_of "" (request_of (Ext := stub_mute) stub_lm (ask [])) in
  let st1 := (invoke (Ext := stub_mute) (ask []) stub_lm st).2 in
  invoke (Ext := stub_mute) (ask []) stub_lm st = (Raise KeyError, stub_lm, st1) ∧
  memo_of (Ext := stub_mute) stub_lm st1 !! request = Some (mute_answer ChatAPI) ∧
  invoke (Ext := stub_mute) (ask []) stub_lm st1 = (Raise KeyError, stub_lm, st1).
Proof.
  intros st request st1.
  apply (unreadable_response_is_memoised (Ext := stub_mute) (ask []) stub_lm st
           request (mute_answer ChatAPI) KeyError st1);
    vm_compute; reflexivity.
Defined.

(** [lm.inspect_history(0)] after one call. *)
Lemma inspect_zero_shows_everything_witness :
  let lm := (invoke (ask []) stub_lm (stub_process [true] false)).1.2 in
  inspect_history capitalize_ascii lm 0 []
  = (show_entries capitalize_ascii (history lm);;
     print (newline +:+ newline +:+ newline)) [].
Proof.
  intros lm. apply (inspect_zero_shows_everything capitalize_ascii lm 0 []).
  left. reflexivity.
Defined.

(** [lm()] on a chat client, served, and then [lm.inspect_history(1)]. *)
Lemma call_without_prompt_cannot_be_inspected_witness :
  let st := double_process stub_answer
              [request_with "gpt-4o-mini" (PStr "2+2=");
               request_with "gpt-4o-mini" PNone;
               request_with "together/llama-3" (PStr "2+2=");
               request_with "together/llama-3" PNone] [true] in
  let out := LM_call (Ext := stub_more) PNone PNone [] stub_lm st in
  out.1.1 = Ok [PStr "4"] ∧
  inspect_history capitalize_ascii out.1.2 1 []
  = (Fails (Exn AttributeError),
     [] ++ [(newline +:+ newline +:+ newline) +:+ newline;
            _red (capitalize_ascii "user" +:+ " message:") newline +:+ newline]).
Proof.
  intros st out. split; [vm_compute; reflexivity|].
  apply (call_without_prompt_cannot_be_inspected (Ext := stub_more)
           capitalize_ascii [] stub_lm st [PStr "4"] out.1.2 out.2 []).
  vm_compute. reflexivity.
Defined.

(** [lm("2+2=")]: one choice, one output. *)
Lemma one_output_per_choice_witness :
  let st := stub_process [true] false in
  let out := invoke (ask []) stub_lm st in
  ∃ e cs,
    history out.1.2 = history stub_lm ++ [e] ∧
    e_outputs e = [PStr "4"] ∧
    choices (e_response e) = Some cs ∧
    Forall2 (λ ch o, ch = ChatChoice o ∨ ch = TextChoice o) cs [PStr "4"].
Proof.
  intros st out.
  apply (one_output_per_choice (ask []) stub_lm st [PStr "4"] out.1.2 out.2).
  vm_compute. reflexivity.
Defined.
